(** * memfs: the in-memory billy filesystem (gopkg.in/src-d/go-billy.v2/memfs)

    A shallow embedding of [memfs.Memory] and of its file handles, and of
    [subdirfs.SubDir], together with the properties of the open flags, of
    symlink resolution, of the boundary of the root and of temp-file
    allocation.

    Layout: lexical paths (Go's [path/filepath] on a slash-separated
    platform), the storage tree and the content buffers, the file handle
    ([file]), the filesystem facade ([Memory]), the filesystem of a
    subdirectory ([SubDir]), then the theorems. *)

From Stdlib Require Import ZArith String Ascii.
From stdpp Require Import gmap strings list pretty.

Local Open Scope string_scope.
Local Open Scope list_scope.
Local Open Scope Z_scope.

(** ** Lexical paths *)

Module filepath.

(** [filepath.Separator] on the platforms where it is a slash. *)
Definition Separator : ascii := "/"%char.

Definition isSep (c : ascii) : bool := Ascii.eqb c Separator.

(** [strings.HasPrefix]. *)
Fixpoint HasPrefix (s p : string) {struct p} : bool :=
  match p with
  | EmptyString => true
  | String a p' =>
      match s with
      | EmptyString => false
      | String b s' => Ascii.eqb a b && HasPrefix s' p'
      end
  end.

(** The elements of a path between its separators ([strings.Split] on the
    separator): one more element than there are separators. *)
Fixpoint splitSep (s : string) : list string :=
  match s with
  | EmptyString => [EmptyString]
  | String c r =>
      if isSep c then EmptyString :: splitSep r
      else match splitSep r with
           | [] => [String c EmptyString]
           | w :: ws => String c w :: ws
           end
  end.

(** [strings.Join] with the separator. *)
Definition joinSep (l : list string) : string := String.concat "/" l.

(** One element of [filepath.Clean]'s scan. [out] is the output written so
    far, last element first.  An empty element and [.] are dropped; [..]
    removes the last real element, is kept when the path is not rooted and
    nothing can be removed, and is dropped at the root. *)
Definition cleanStep (rooted : bool) (out : list string) (e : string)
  : list string :=
  if String.eqb e "" || String.eqb e "." then out
  else if String.eqb e ".." then
    match out with
    | top :: rest => if String.eqb top ".." then e :: out else rest
    | [] => if rooted then [] else [e]
    end
  else e :: out.

Definition cleanElems (rooted : bool) (l : list string) : list string :=
  rev (fold_left (cleanStep rooted) l []).

(** [filepath.Clean]: the shortest path name equivalent to [path] by purely
    lexical processing. *)
Definition Clean (path : string) : string :=
  if String.eqb path "" then "."
  else
    let rooted := HasPrefix path "/" in
    let out := cleanElems rooted (splitSep path) in
    if rooted then "/" +:+ joinSep out
    else match out with
         | [] => "."
         | _ => joinSep out
         end.

(** [filepath.ToSlash] and [filepath.FromSlash] replace the separator by a
    slash and back: the identity where the separator is a slash. *)
Definition ToSlash (path : string) : string := path.
Definition FromSlash (path : string) : string := path.

(** [filepath.Join]: the leading empty elements are ignored, the others are
    joined with the separator and the result is cleaned; the empty string
    when every element is empty. *)
Fixpoint Join (elem : list string) : string :=
  match elem with
  | [] => ""
  | e :: rest => if String.eqb e "" then Join rest else Clean (joinSep elem)
  end.

(** [filepath.IsAbs]. *)
Definition IsAbs (path : string) : bool := HasPrefix path "/".

(** [filepath.Dir]: all but the last element of the path, cleaned. *)
Definition Dir (path : string) : string :=
  match splitSep path with
  | [] | [_] => Clean ""
  | l => Clean (joinSep (removelast l) +:+ "/")
  end.

(** [filepath.Base]: the last element of the path, trailing separators
    removed; [.] for the empty path and the separator for a path of
    separators only. *)
Definition Base (path : string) : string :=
  if String.eqb path "" then "."
  else match List.filter (fun e => negb (String.eqb e "")) (rev (splitSep path)) with
       | [] => "/"
       | e :: _ => e
       end.

(** The elements of a cleaned path, the root apart. *)
Definition elems (p : string) : list string :=
  List.filter (fun e => negb (String.eqb e "")) (splitSep p).

(** The first point where two element lists differ. *)
Fixpoint dropCommon (b t : list string) : list string * list string :=
  match b, t with
  | x :: b', y :: t' => if String.eqb x y then dropCommon b' t' else (b, t)
  | _, _ => (b, t)
  end.

(** [filepath.Rel]: a path that joined to [basepath] is lexically equivalent
    to [targpath]; [None] is its error (one path rooted and the other not,
    or the base has a [..] the target lacks). *)
Definition Rel (basepath targpath : string) : option string :=
  let base := Clean basepath in
  let targ := Clean targpath in
  if String.eqb targ base then Some "."
  else
    let base := if String.eqb base "." then "" else base in
    if negb (Bool.eqb (HasPrefix base "/") (HasPrefix targ "/")) then None
    else
      let '(b, t) := dropCommon (elems base) (elems targ) in
      match b with
      | [] => Some (joinSep t)
      | e :: _ =>
          if String.eqb e ".." then None
          else Some (joinSep (map (fun _ => "..") b ++ t))
      end.

End filepath.

Import filepath.

(** ** Errors, flags and modes *)

(** The error values the package returns: the sentinels of [os], [io] and
    [billy], and the errors built on the spot by [errors.New], [fmt.Errorf]
    and [os.PathError]. *)
Inductive error : Type :=
  | ErrNotExist                          (* os.ErrNotExist *)
  | ErrExist                             (* os.ErrExist *)
  | ErrClosed                            (* os.ErrClosed *)
  | ErrCrossedBoundary                   (* billy.ErrCrossedBoundary *)
  | EOF                                  (* io.EOF *)
  | ErrorString (msg : string)           (* errors.New, fmt.Errorf *)
  | PathError (op path msg : string).    (* *os.PathError *)

(** [os.IsNotExist]. *)
Definition IsNotExist (e : error) : bool :=
  match e with ErrNotExist => true | _ => false end.

(** A Go result pair [(v, err)]: either the value or the error is set. *)
Inductive result (A : Type) : Type :=
  | Ok (a : A)
  | Err (e : error).
Arguments Ok {A} a.
Arguments Err {A} e.

(** The open flags of package [os] (their Linux values). *)
Definition O_RDONLY : Z := 0.
Definition O_WRONLY : Z := 1.
Definition O_RDWR : Z := 2.
Definition O_CREATE : Z := 64.
Definition O_EXCL : Z := 128.
Definition O_TRUNC : Z := 512.
Definition O_APPEND : Z := 1024.

(** [os.FileMode] bits. *)
Definition ModeDir : Z := 2 ^ 31.
Definition ModeSymlink : Z := 2 ^ 27.
Definition ModePerm : Z := 511.

(** [os.FileMode.IsDir] and [os.FileMode.Perm]. *)
Definition IsDir (m : Z) : bool := negb (Z.land m ModeDir =? 0).
Definition Perm (m : Z) : Z := Z.land m ModePerm.

(** [io.SeekStart], [io.SeekCurrent], [io.SeekEnd]. *)
Definition SeekStart : Z := 0.
Definition SeekCurrent : Z := 1.
Definition SeekEnd : Z := 2.

(** Two's complement wrap-around of [int64] arithmetic. *)
Definition wrap64 (x : Z) : Z := (x + 2 ^ 63) mod 2 ^ 64 - 2 ^ 63.

Definition isCreate (flag : Z) : bool := negb (Z.land flag O_CREATE =? 0).
Definition isAppend (flag : Z) : bool := negb (Z.land flag O_APPEND =? 0).
Definition isTruncate (flag : Z) : bool := negb (Z.land flag O_TRUNC =? 0).
Definition isReadAndWrite (flag : Z) : bool := negb (Z.land flag O_RDWR =? 0).
Definition isReadOnly (flag : Z) : bool := flag =? O_RDONLY.
Definition isWriteOnly (flag : Z) : bool := negb (Z.land flag O_WRONLY =? 0).
Definition isExclusive (flag : Z) : bool := negb (Z.land flag O_EXCL =? 0).
Definition isSymlink (m : Z) : bool := negb (Z.land m ModeSymlink =? 0).

(** ** Content buffers and the storage tree *)

(** A [*content] pointer: the location of a content buffer. *)
Definition loc : Type := nat.

(** [type file struct]: a node of the storage tree and, after [Duplicate],
    an open handle.  [content] is the shared pointer to the buffer. *)
Record file : Type := mkFile {
  name : string;
  content : loc;
  position : Z;
  flag : Z;
  mode : Z;
  isClosed : bool
}.

(** [type fileInfo struct]. *)
Record fileInfo : Type := mkFileInfo {
  fi_name : string;
  fi_size : Z;
  fi_mode : Z
}.

(** Modelled from the spec: [type storage struct] is not among the sources,
    its field [files] apart, the map from path to node that [TempFile]
    indexes.  Beside the map are the content buffers that nodes and open
    handles point to, with the next location to allocate.  Every [Memory]
    made by [Chroot] shares one storage. *)
Record storage : Type := mkStorage {
  files : gmap string file;
  bufs : gmap loc (list Byte.byte);
  next : loc
}.

(** The bytes behind a content pointer ([c.bytes]). *)
Definition bytes (s : storage) (c : loc) : list Byte.byte :=
  default [] (bufs s !! c).

Definition setBytes (c : loc) (b : list Byte.byte) (s : storage) : storage :=
  mkStorage (files s) (<[c := b]> (bufs s)) (next s).

(** [content.Truncate] and [content.Len]. *)
Definition content_Truncate (c : loc) (s : storage) : storage :=
  setBytes c [] s.

Definition content_Len (c : loc) (s : storage) : Z :=
  Z.of_nat (length (bytes s c)).

(** Modelled from the spec: [content.ReadAt] is not among the sources.  It
    copies the available bytes of the buffer from [off] on into a caller
    buffer of [len] bytes and returns them (their number is the count), with
    the end-of-data signal when [off] is at or past the end of the buffer or
    fewer than [len] bytes were available; a negative offset is an error. *)
Definition content_ReadAt (c : loc) (len : nat) (off : Z) (s : storage)
  : list Byte.byte * option error :=
  if off <? 0 then ([], Some (PathError "readat" "" "negative offset"))
  else
    let size := content_Len c s in
    if size <=? off then ([], Some EOF)
    else
      let btr := take len (drop (Z.to_nat off) (bytes s c)) in
      (btr, if (length btr <? len)%nat then Some EOF else None).

(** Modelled from the spec: [content.WriteAt] is not among the sources.  It
    writes [p] at [off], over the bytes that are there and past them,
    growing the buffer (zero filled up to [off]) when the write goes past
    its length, and returns the number of bytes written; a negative offset
    is an error. *)
Definition content_WriteAt (c : loc) (p : list Byte.byte) (off : Z)
    (s : storage) : (Z * option error) * storage :=
  if off <? 0 then ((0, Some (PathError "writeat" "" "negative offset")), s)
  else
    let o := Z.to_nat off in
    let old := bytes s c in
    let padded := old ++ replicate (o - length old)%nat Byte.x00 in
    ((Z.of_nat (length p), None),
     setBytes c (take o padded ++ p ++ drop (o + length p)%nat old) s).

(** Modelled from the spec: [clean] is not among the sources: the lexical
    cleaning ([.], [..] and duplicate separators removed) of a path. *)
Definition clean (path : string) : string := Clean (FromSlash path).

(** Modelled from the spec: the ancestors of a path, which [storage.New]
    creates when they are missing: the directories above it, nearest first,
    up to the root. *)
Fixpoint ancestorsFrom (fuel : nat) (path : string) : list string :=
  match fuel with
  | O => []
  | S fuel' =>
      let d := Dir path in
      if String.eqb d path then [] else d :: ancestorsFrom fuel' d
  end.

Definition ancestors (path : string) : list string :=
  ancestorsFrom (String.length path) path.

(** Modelled from the spec: the creation of a node by [storage.New]: an
    empty buffer is allocated and a node that owns it is inserted at
    [path], under the base name of [path]. *)
Definition insertNode (path : string) (m : Z) (fl : Z) (s : storage)
  : file * storage :=
  let f := mkFile (Base path) (next s) 0 fl m false in
  (f, mkStorage (<[path := f]> (files s)) (<[next s := []]> (bufs s))
                (S (next s))).

(** Modelled from the spec: the creation of a missing ancestor: a directory
    node at [path] unless a node is there. *)
Definition ensureDir (m : Z) (s : storage) (path : string) : storage :=
  match files s !! path with
  | Some _ => s
  | None => snd (insertNode path (Z.lor (Perm m) ModeDir) 0 s)
  end.

(** Modelled from the spec: [storage.New] is not among the sources.  With
    a directory mode it inserts a directory node, and an existing directory
    is not an error.  Otherwise it requires the create flag; a node that is
    already there is truncated, not allocated again, so that the handles on
    its buffer see the clear, unless the flags are exclusive (an error) or
    append.  The missing ancestors are created as directory nodes. *)
Definition storage_New (path : string) (m : Z) (fl : Z) (s : storage)
  : result file * storage :=
  match files s !! path with
  | Some f =>
      if IsDir m then
        if IsDir (mode f) then (Ok f, s)
        else (Err (ErrorString ("file already exists " +:+ path)), s)
      else if negb (isCreate fl)
      then (Err (ErrorString ("file already exists " +:+ path)), s)
      else if isExclusive fl then (Err ErrExist, s)
      else if isAppend fl then (Ok f, s)
      else (Ok f, content_Truncate (content f) s)
  | None =>
      if IsDir m || isCreate fl then
        let '(f, s1) := insertNode path m fl s in
        (Ok f, fold_left (ensureDir m) (ancestors path) s1)
      else (Err ErrNotExist, s)
  end.

(** Modelled from the spec: [storage.Get] is not among the sources: the
    exact lookup of a path. *)
Definition storage_Get (path : string) (s : storage) : option file :=
  files s !! path.

(** Modelled from the spec: [storage.Children] is not among the sources:
    the nodes whose immediate parent is [path]. *)
Definition storage_Children (path : string) (s : storage) : list file :=
  map snd (List.filter (fun kf => bool_decide (Dir (fst kf) = path)
                             && negb (String.eqb (fst kf) path))
                  (map_to_list (files s))).

(** Modelled from the spec: [storage.Remove] is not among the sources: it
    fails on a directory that has children and on a missing path, and
    deletes the node otherwise; the buffer stays for the open handles. *)
Definition storage_Remove (path : string) (s : storage)
  : option error * storage :=
  match files s !! path with
  | None => (Some ErrNotExist, s)
  | Some f =>
      if IsDir (mode f) && negb (bool_decide (storage_Children path s = []))
      then (Some (ErrorString ("dir: " +:+ path +:+ " contains files")), s)
      else (None, mkStorage (delete path (files s)) (bufs s) (next s))
  end.

(** Modelled from the spec: the path of a node under [from] once
    [storage.Rename] has moved [from] to [to]. *)
Definition moved (from to path : string) : string :=
  if String.eqb path from then to
  else if HasPrefix path (from +:+ "/")
       then to +:+ String.substring (String.length from)
                    (String.length path - String.length from)%nat path
       else path.

(** Modelled from the spec: [storage.Rename] is not among the sources: it
    moves the node at [from], and the nodes nested beneath a directory, to
    [to], and reports a missing source as not found. *)
Definition storage_Rename (from to : string) (s : storage)
  : option error * storage :=
  match files s !! from with
  | None => (Some ErrNotExist, s)
  | Some f =>
      let mv (kf : string * file) : string * file :=
        let k := moved from to (fst kf) in
        (k, if String.eqb (fst kf) from
            then mkFile (Base to) (content f) (position f) (flag f) (mode f)
                        (isClosed f)
            else snd kf) in
      (None, mkStorage (list_to_map (map mv (map_to_list (files s))))
                       (bufs s) (next s))
  end.

(** Modelled from the spec: [newStorage] is not among the sources: the
    storage without a node. *)
Definition newStorage : storage := mkStorage ∅ ∅ O.

(** ** The file handle *)

Definition setPosition (pos : Z) (f : file) : file :=
  mkFile (name f) (content f) pos (flag f) (mode f) (isClosed f).

Definition file_Name (f : file) : string := name f.

(** [file.ReadAt] into a buffer of [len] bytes: the bytes read (their number
    is the count) and the error. *)
Definition file_ReadAt (f : file) (len : nat) (off : Z) (s : storage)
  : list Byte.byte * option error :=
  if isClosed f then ([], Some ErrClosed)
  else if negb (isReadAndWrite (flag f)) && negb (isReadOnly (flag f))
  then ([], Some (ErrorString "read not supported"))
  else content_ReadAt (content f) len off s.

(** [file.Read]: reads at the cursor and advances it; the end-of-data signal
    is dropped when bytes were read. *)
Definition file_Read (f : file) (len : nat) (s : storage)
  : (list Byte.byte * option error) * file :=
  let '(data, err) := file_ReadAt f len (position f) s in
  let n := Z.of_nat (length data) in
  let f' := setPosition (wrap64 (position f + n)) f in
  let err' := match err with
              | Some EOF => if negb (n =? 0) then None else err
              | _ => err
              end in
  ((data, err'), f').

(** [file.Seek]. *)
Definition file_Seek (f : file) (offset whence : Z) (s : storage)
  : (Z * option error) * file :=
  if isClosed f then ((0, Some ErrClosed), f)
  else
    let pos :=
      if whence =? SeekCurrent then wrap64 (position f + offset)
      else if whence =? SeekStart then offset
      else if whence =? SeekEnd
           then wrap64 (content_Len (content f) s + offset)
           else position f in
    ((pos, None), setPosition pos f).

(** [file.Write]: writes at the cursor and advances it. *)
Definition file_Write (f : file) (p : list Byte.byte) (s : storage)
  : (Z * option error) * file * storage :=
  if isClosed f then ((0, Some ErrClosed), f, s)
  else if negb (isReadAndWrite (flag f)) && negb (isWriteOnly (flag f))
  then ((0, Some (ErrorString "write not supported")), f, s)
  else
    let '((n, err), s') := content_WriteAt (content f) p (position f) s in
    ((n, err), setPosition (wrap64 (position f + n)) f, s').

(** [file.Close]. *)
Definition file_Close (f : file) : option error * file :=
  if isClosed f then (Some ErrClosed, f)
  else (None, mkFile (name f) (content f) (position f) (flag f) (mode f) true).

(** [file.Duplicate]: a new handle on the buffer of [f]. *)
Definition file_Duplicate (f : file) (filename : string) (m : Z) (fl : Z)
    (s : storage) : file * storage :=
  let new := mkFile filename (content f) 0 fl m false in
  let new := if isAppend fl
             then setPosition (content_Len (content new) s) new
             else new in
  let s := if isTruncate fl then content_Truncate (content new) s else s in
  (new, s).

(** [file.Stat]. *)
Definition file_Stat (f : file) (s : storage) : fileInfo :=
  mkFileInfo (file_Name f) (content_Len (content f) s) (mode f).

(** ** The filesystem *)

(** [type Memory struct]; the storage pointer [s] is the [storage] that
    every operation takes and returns. *)
Record Memory : Type := mkMemory {
  base : string;
  tempCount : Z
}.

(** [New], with [newStorage] for its storage. *)
Definition New : Memory := mkMemory "/" 0.

Definition Memory_Join (elem : list string) : string := Join elem.

Definition Memory_fullpath (fs : Memory) (path : string) : string :=
  clean (Memory_Join [base fs; path]).

(** [Memory.validate]; the error of [filepath.Rel] is dropped and its path
    is then empty. *)
Definition Memory_validate (fs : Memory) (fullpath : string) : option error :=
  let relpath := default "" (Rel (base fs) fullpath) in
  if HasPrefix relpath ".." then Some ErrCrossedBoundary else None.

Definition Memory_getFromStorage (fs : Memory) (fullpath : string)
    (s : storage) : result file :=
  match Memory_validate fs fullpath with
  | Some err => Err err
  | None =>
      match storage_Get fullpath s with
      | None => Err ErrNotExist
      | Some f => Ok f
      end
  end.

Definition isAbs (path : string) : bool :=
  IsAbs path || HasPrefix path "/".

(** [Memory.resolveLink]. *)
Definition Memory_resolveLink (fs : Memory) (fullpath : string) (f : file)
    (s : storage) : string * bool :=
  if negb (isSymlink (mode f)) then (fullpath, false)
  else
    let target := string_of_list_byte (bytes s (content f)) in
    let target := if negb (isAbs target)
                  then Memory_Join [Dir fullpath; target]
                  else target in
    (default "" (Rel (base fs) target), true).

(** The end of [Memory.OpenFile], after its [switch]: a directory is not
    opened, and the handle is a duplicate of the node under the path
    relative to the base. *)
Definition OpenFile_end (fs : Memory) (filename fullpath : string) (f : file)
    (fl perm : Z) (s : storage) : result file * storage :=
  if IsDir (mode f)
  then (Err (ErrorString ("cannot open directory: " +:+ filename)), s)
  else match Rel (base fs) fullpath with
       | None =>
           (Err (ErrorString ("Rel: can't make " +:+ fullpath
                              +:+ " relative to " +:+ base fs)), s)
       | Some filename' =>
           let '(h, s') := file_Duplicate f filename' perm fl s in
           (Ok h, s')
       end.

(** [Memory.OpenFile].  It calls itself on the target of a symlink: [fuel]
    bounds the links followed, and [None] is a chain longer than that. *)
Fixpoint Memory_OpenFile (fuel : nat) (fs : Memory) (filename : string)
    (fl : Z) (perm : Z) (s : storage) : option (result file * storage) :=
  match fuel with
  | O => None
  | S fuel' =>
      let fullpath := Memory_fullpath fs filename in
      match Memory_getFromStorage fs fullpath s with
      | Err err =>
          if IsNotExist err then
            if negb (isCreate fl) then Some (Err ErrNotExist, s)
            else match storage_New fullpath perm fl s with
                 | (Err err, s') => Some (Err err, s')
                 | (Ok f, s') =>
                     Some (OpenFile_end fs filename fullpath f fl perm s')
                 end
          else Some (Err err, s)
      | Ok f =>
          match Memory_resolveLink fs fullpath f s with
          | (target, true) => Memory_OpenFile fuel' fs target fl perm s
          | (_, false) =>
              Some (OpenFile_end fs filename fullpath f fl perm s)
          end
      end
  end.

(** The flags and the permissions of [Memory.Create]:
    [os.O_RDWR|os.O_CREATE|os.O_TRUNC] and [0666]. *)
Definition createFlags : Z := Z.lor (Z.lor O_RDWR O_CREATE) O_TRUNC.
Definition createPerm : Z := 438.

Definition Memory_Create (fuel : nat) (fs : Memory) (filename : string)
    (s : storage) : option (result file * storage) :=
  Memory_OpenFile fuel fs filename createFlags createPerm s.

Definition Memory_Open (fuel : nat) (fs : Memory) (filename : string)
    (s : storage) : option (result file * storage) :=
  Memory_OpenFile fuel fs filename O_RDONLY 0 s.

Definition setName (n : string) (fi : fileInfo) : fileInfo :=
  mkFileInfo n (fi_size fi) (fi_mode fi).

(** [Memory.Stat], with [fuel] as in [Memory_OpenFile]. *)
Fixpoint Memory_Stat (fuel : nat) (fs : Memory) (filename : string)
    (s : storage) : option (result fileInfo) :=
  match fuel with
  | O => None
  | S fuel' =>
      let fullpath := Memory_fullpath fs filename in
      match Memory_getFromStorage fs fullpath s with
      | Err err => Some (Err err)
      | Ok f =>
          let fi := file_Stat f s in
          match Memory_resolveLink fs fullpath f s with
          | (target, true) =>
              match Memory_Stat fuel' fs target s with
              | None => None
              | Some (Err err) => Some (Err err)
              | Some (Ok fi) => Some (Ok (setName (Base filename) fi))
              end
          | (_, false) => Some (Ok (setName (Base filename) fi))
          end
      end
  end.

(** [Memory.Lstat]. *)
Definition Memory_Lstat (fs : Memory) (filename : string) (s : storage)
  : result fileInfo :=
  let fullpath := Memory_fullpath fs filename in
  match Memory_getFromStorage fs fullpath s with
  | Err err => Err err
  | Ok f => Ok (file_Stat f s)
  end.

(** [Memory.ReadDir], with [fuel] as in [Memory_OpenFile].  An error of
    [getFromStorage] is not returned: the children are listed. *)
Fixpoint Memory_ReadDir (fuel : nat) (fs : Memory) (path : string)
    (s : storage) : option (result (list fileInfo)) :=
  match fuel with
  | O => None
  | S fuel' =>
      let fullpath := Memory_fullpath fs path in
      let entries :=
        Some (Ok (map (fun f => file_Stat f s) (storage_Children fullpath s))) in
      match Memory_getFromStorage fs fullpath s with
      | Ok f =>
          match Memory_resolveLink fs fullpath f s with
          | (target, true) => Memory_ReadDir fuel' fs target s
          | (_, false) => entries
          end
      | Err _ => entries
      end
  end.

(** [Memory.MkdirAll]. *)
Definition Memory_MkdirAll (fs : Memory) (path : string) (perm : Z)
    (s : storage) : option error * storage :=
  let fullpath := Memory_Join [base fs; path] in
  match storage_New fullpath (Z.lor perm ModeDir) 0 s with
  | (Err err, s') => (Some err, s')
  | (Ok _, s') => (None, s')
  end.

Definition maxTempFiles : Z := 1024 * 4.

(** The error of [Memory.TempFile]. *)
Definition errTempFiles : error :=
  ErrorString "max. number of tempfiles reached".

(** [Memory.getTempFilename]; [now] is the value of [time.Now().UnixNano()].
    The counter is below [maxTempFiles] when [TempFile] calls it, so that
    the increment does not wrap. *)
Definition Memory_getTempFilename (now : Z) (fs : Memory) (dir prefix : string)
  : string * Memory :=
  let fs := mkMemory (base fs) (tempCount fs + 1) in
  let filename := prefix +:+ "_" +:+ pretty (tempCount fs) +:+ "_" +:+ pretty now in
  (Memory_Join [base fs; dir; filename], fs).

(** The [for] loop of [Memory.TempFile]; [clock n] is the time read at the
    attempt that sets the counter to [n]. *)
Fixpoint tempLoop (n : nat) (clock : Z -> Z) (fs : Memory)
    (dir prefix : string) (s : storage) : option (result string * Memory) :=
  match n with
  | O => None
  | S n' =>
      if maxTempFiles <=? tempCount fs
      then Some (Err errTempFiles, fs)
      else
        let '(fullpath, fs') :=
          Memory_getTempFilename (clock (tempCount fs + 1)) fs dir prefix in
        match files s !! fullpath with
        | Some _ => tempLoop n' clock fs' dir prefix s
        | None => Some (Ok fullpath, fs')
        end
  end.

(** [Memory.TempFile].  Every turn of the loop raises the counter, which
    bounds the turns; [fuel] is for the [Create] that follows. *)
Definition Memory_TempFile (fuel : nat) (clock : Z -> Z) (fs : Memory)
    (dir prefix : string) (s : storage)
  : option (result file * Memory * storage) :=
  match tempLoop (S (Z.to_nat (maxTempFiles - tempCount fs))) clock fs
                 dir prefix s with
  | None => None
  | Some (Err err, fs') => Some (Err err, fs', s)
  | Some (Ok fullpath, fs') =>
      match Memory_Create fuel fs' fullpath s with
      | None => None
      | Some (r, s') => Some (r, fs', s')
      end
  end.

(** [Memory.Rename]. *)
Definition Memory_Rename (fs : Memory) (from to : string) (s : storage)
  : option error * storage :=
  let from := Memory_Join [base fs; from] in
  match Memory_validate fs from with
  | Some err => (Some err, s)
  | None =>
      let to := Memory_Join [base fs; to] in
      match Memory_validate fs to with
      | Some err => (Some err, s)
      | None => storage_Rename from to s
      end
  end.

(** [Memory.Remove]. *)
Definition Memory_Remove (fs : Memory) (filename : string) (s : storage)
  : option error * storage :=
  let fullpath := Memory_Join [base fs; filename] in
  match Memory_validate fs fullpath with
  | Some err => (Some err, s)
  | None => storage_Remove fullpath s
  end.

(** [isCrossBoundaries]. *)
Definition isCrossBoundaries (path : string) : bool :=
  let path := ToSlash path in
  let path := Clean path in
  HasPrefix path "..".

(** [Memory.isTargetOutBounders]. *)
Definition Memory_isTargetOutBounders (fs : Memory) (link target : string)
  : bool :=
  let fulllink := Memory_Join [base fs; link] in
  let fullpath := Memory_Join [Dir fulllink; target] in
  match Rel (base fs) fullpath with
  | None => true
  | Some target => isCrossBoundaries target
  end.

(** The flags of [billy.WriteFile], [os.O_WRONLY|os.O_CREATE|os.O_TRUNC],
    and the mode of the node that [Memory.Symlink] writes,
    [0777|os.ModeSymlink]. *)
Definition writeFlags : Z := Z.lor (Z.lor O_WRONLY O_CREATE) O_TRUNC.
Definition linkMode : Z := Z.lor 511 ModeSymlink.

(** Modelled from the spec: [billy.WriteFile] is not among the sources.  The
    target of a symlink is stored as the content of a symlink node: the path
    is opened for writing with the create and truncate flags and the given
    mode, the data is written through the handle and the handle is closed;
    the first error met is returned. *)
Definition WriteFile (fuel : nat) (fs : Memory) (filename : string)
    (data : list Byte.byte) (perm : Z) (s : storage)
  : option (option error * storage) :=
  match Memory_OpenFile fuel fs filename writeFlags perm s with
  | None => None
  | Some (Err err, s') => Some (Some err, s')
  | Some (Ok f, s') =>
      let '((n, err), f', s'') := file_Write f data s' in
      let err := match err with
                 | None => if n <? Z.of_nat (length data)
                           then Some (ErrorString "short write") else None
                 | Some _ => err
                 end in
      let '(err1, _) := file_Close f' in
      Some (match err with None => err1 | Some _ => err end, s'')
  end.

(** [Memory.Symlink]. *)
Definition Memory_Symlink (fuel : nat) (fs : Memory) (target link : string)
    (s : storage) : option (option error * storage) :=
  match Memory_Stat fuel fs link s with
  | None => None
  | Some (Ok _) => Some (Some ErrExist, s)
  | Some (Err err) =>
      if negb (IsNotExist err) then Some (Some err, s)
      else if Memory_isTargetOutBounders fs link target
      then Some (Some ErrCrossedBoundary, s)
      else WriteFile fuel fs (clean link) (list_byte_of_string (clean target))
                     linkMode s
  end.

(** [Memory.Readlink]. *)
Definition Memory_Readlink (fs : Memory) (link : string) (s : storage)
  : result string :=
  let fullpath := Memory_fullpath fs link in
  match Memory_getFromStorage fs fullpath s with
  | Err err => Err err
  | Ok f =>
      if negb (isSymlink (mode f))
      then Err (PathError "readlink" fullpath "not a symlink")
      else Ok (string_of_list_byte (bytes s (content f)))
  end.

(** [Memory.Chroot]: a filesystem with a deeper base on the same storage. *)
Definition Memory_Chroot (fs : Memory) (path : string) : result Memory :=
  let fullpath := Memory_Join [base fs; path] in
  match Memory_validate fs fullpath with
  | Some err => Err err
  | None => Ok (mkMemory fullpath 0)
  end.

Definition Memory_Root (fs : Memory) : string := base fs.

(** ** The filesystem of a subdirectory *)

(** [billy.Filesystem], the interface that [SubDir] wraps, with
    [billy.File.Name]: the methods of a filesystem whose state is [St] and
    whose handles are [F].  A call returns its results and the state after
    it, and nothing when it does not return. *)
Record Filesystem (St F : Type) : Type := mkFilesystem {
  fs_Create : string -> St -> option (result F * St);
  fs_Open : string -> St -> option (result F * St);
  fs_OpenFile : string -> Z -> Z -> St -> option (result F * St);
  fs_TempFile : string -> string -> St -> option (result F * St);
  fs_Rename : string -> string -> St -> option (option error * St);
  fs_Remove : string -> St -> option (option error * St);
  fs_MkdirAll : string -> Z -> St -> option (option error * St);
  fs_Stat : string -> St -> option (result fileInfo * St);
  fs_Lstat : string -> St -> option (result fileInfo * St);
  fs_ReadDir : string -> St -> option (result (list fileInfo) * St);
  fs_Join : list string -> string;
  fs_Symlink : string -> string -> St -> option (option error * St);
  fs_Readlink : string -> St -> option (result string * St);
  fs_Name : F -> string
}.
Arguments mkFilesystem {St F}.
Arguments fs_Create {St F}.
Arguments fs_Open {St F}.
Arguments fs_OpenFile {St F}.
Arguments fs_TempFile {St F}.
Arguments fs_Rename {St F}.
Arguments fs_Remove {St F}.
Arguments fs_MkdirAll {St F}.
Arguments fs_Stat {St F}.
Arguments fs_Lstat {St F}.
Arguments fs_ReadDir {St F}.
Arguments fs_Join {St F}.
Arguments fs_Symlink {St F}.
Arguments fs_Readlink {St F}.
Arguments fs_Name {St F}.

(** [type SubDir struct]. *)
Record SubDir (St F : Type) : Type := mkSubDir {
  underlying : Filesystem St F;
  SubDir_base : string                   (* base *)
}.
Arguments mkSubDir {St F}.
Arguments underlying {St F}.
Arguments SubDir_base {St F}.

Section SubDir.

Context {St F F' : Type}.

(** [newFile] is not among the sources: the handle that [SubDir] returns
    for a handle of the underlying filesystem and a name is left open. *)
Variable newFile : SubDir St F -> F -> string -> F'.

(** [New] of package [subdirfs]. *)
Definition SubDir_New (fs : Filesystem St F) (base : string) : SubDir St F :=
  mkSubDir fs base.

Definition SubDir_Root (fs : SubDir St F) : string := SubDir_base fs.

Definition SubDir_Join (fs : SubDir St F) (elem : list string) : string :=
  fs_Join (underlying fs) elem.

(** [SubDir.underlyingPath]; [isCrossBoundaries] of package [subdirfs] is
    that of package [memfs]. *)
Definition SubDir_underlyingPath (fs : SubDir St F) (filename : string)
  : result string :=
  if isCrossBoundaries filename then Err ErrCrossedBoundary
  else Ok (SubDir_Join fs [SubDir_Root fs; filename]).

(** The end of [Create], [Open], [OpenFile] and [TempFile]: the error of
    the underlying filesystem, or its handle wrapped under [name]. *)
Definition wrapFile (fs : SubDir St F) (name : F -> string)
    (r : option (result F * St)) : option (result F' * St) :=
  match r with
  | None => None
  | Some (Err err, st) => Some (Err err, st)
  | Some (Ok f, st) => Some (Ok (newFile fs f (name f)), st)
  end.

Definition SubDir_Create (fs : SubDir St F) (filename : string) (st : St)
  : option (result F' * St) :=
  match SubDir_underlyingPath fs filename with
  | Err err => Some (Err err, st)
  | Ok fullpath =>
      wrapFile fs (fun _ => filename) (fs_Create (underlying fs) fullpath st)
  end.

Definition SubDir_Open (fs : SubDir St F) (filename : string) (st : St)
  : option (result F' * St) :=
  match SubDir_underlyingPath fs filename with
  | Err err => Some (Err err, st)
  | Ok fullpath =>
      wrapFile fs (fun _ => filename) (fs_Open (underlying fs) fullpath st)
  end.

Definition SubDir_OpenFile (fs : SubDir St F) (filename : string)
    (flag mode : Z) (st : St) : option (result F' * St) :=
  match SubDir_underlyingPath fs filename with
  | Err err => Some (Err err, st)
  | Ok fullpath =>
      wrapFile fs (fun _ => filename)
        (fs_OpenFile (underlying fs) fullpath flag mode st)
  end.

Definition SubDir_TempFile (fs : SubDir St F) (dir prefix : string) (st : St)
  : option (result F' * St) :=
  match SubDir_underlyingPath fs dir with
  | Err err => Some (Err err, st)
  | Ok fullpath =>
      wrapFile fs
        (fun f => SubDir_Join fs [dir; Base (fs_Name (underlying fs) f)])
        (fs_TempFile (underlying fs) fullpath prefix st)
  end.

Definition SubDir_Rename (fs : SubDir St F) (from to : string) (st : St)
  : option (option error * St) :=
  match SubDir_underlyingPath fs from with
  | Err err => Some (Some err, st)
  | Ok from =>
      match SubDir_underlyingPath fs to with
      | Err err => Some (Some err, st)
      | Ok to => fs_Rename (underlying fs) from to st
      end
  end.

Definition SubDir_Remove (fs : SubDir St F) (path : string) (st : St)
  : option (option error * St) :=
  match SubDir_underlyingPath fs path with
  | Err err => Some (Some err, st)
  | Ok fullpath => fs_Remove (underlying fs) fullpath st
  end.

Definition SubDir_MkdirAll (fs : SubDir St F) (filename : string) (perm : Z)
    (st : St) : option (option error * St) :=
  match SubDir_underlyingPath fs filename with
  | Err err => Some (Some err, st)
  | Ok fullpath => fs_MkdirAll (underlying fs) fullpath perm st
  end.

Definition SubDir_Stat (fs : SubDir St F) (filename : string) (st : St)
  : option (result fileInfo * St) :=
  match SubDir_underlyingPath fs filename with
  | Err err => Some (Err err, st)
  | Ok fullpath => fs_Stat (underlying fs) fullpath st
  end.

Definition SubDir_Lstat (fs : SubDir St F) (filename : string) (st : St)
  : option (result fileInfo * St) :=
  match SubDir_underlyingPath fs filename with
  | Err err => Some (Err err, st)
  | Ok fullpath => fs_Lstat (underlying fs) fullpath st
  end.

Definition SubDir_ReadDir (fs : SubDir St F) (path : string) (st : St)
  : option (result (list fileInfo) * St) :=
  match SubDir_underlyingPath fs path with
  | Err err => Some (Err err, st)
  | Ok fullpath => fs_ReadDir (underlying fs) fullpath st
  end.

Definition SubDir_isTargetOutBounders (fs : SubDir St F)
    (link target : string) : bool :=
  let fulllink := SubDir_Join fs [SubDir_base fs; link] in
  let fullpath := SubDir_Join fs [Dir fulllink; target] in
  match Rel (SubDir_base fs) fullpath with
  | None => true
  | Some target => isCrossBoundaries target
  end.

(** [SubDir.Symlink]: a rooted target is taken under the base before the
    checks. *)
Definition SubDir_Symlink (fs : SubDir St F) (target link : string) (st : St)
  : option (option error * St) :=
  let target := FromSlash target in
  let target := if IsAbs target || HasPrefix target "/"
                then "/" +:+ SubDir_Join fs [SubDir_Root fs; target]
                else target in
  if SubDir_isTargetOutBounders fs link target
  then Some (Some ErrCrossedBoundary, st)
  else match SubDir_underlyingPath fs link with
       | Err err => Some (Some err, st)
       | Ok link => fs_Symlink (underlying fs) target link st
       end.

(** [SubDir.Readlink]: a rooted target is given relative to the base. *)
Definition SubDir_Readlink (fs : SubDir St F) (link : string) (st : St)
  : option (result string * St) :=
  match SubDir_underlyingPath fs link with
  | Err err => Some (Err err, st)
  | Ok fullpath =>
      match fs_Readlink (underlying fs) fullpath st with
      | None => None
      | Some (Err err, st') => Some (Err err, st')
      | Some (Ok target, st') =>
          if negb (IsAbs target) && negb (HasPrefix target "/")
          then Some (Ok target, st')
          else
            let base := "/" +:+ SubDir_base fs in
            match Rel base target with
            | None =>
                Some (Err (ErrorString ("Rel: can't make " +:+ target
                                        +:+ " relative to " +:+ base)), st')
            | Some target => Some (Ok ("/" +:+ target), st')
            end
      end
  end.

(** [SubDir.Chroot]: a [SubDir] of the same underlying filesystem. *)
Definition SubDir_Chroot (fs : SubDir St F) (path : string)
  : result (SubDir St F) :=
  match SubDir_underlyingPath fs path with
  | Err err => Err err
  | Ok fullpath => Ok (SubDir_New (underlying fs) fullpath)
  end.

End SubDir.

(** [Memory] as a [billy.Filesystem]: the state is the filesystem value,
    with its counter of temp files, and the storage. *)
Definition onStorage {R : Type} (m : Memory) (r : option (R * storage))
  : option (R * (Memory * storage)) :=
  match r with
  | None => None
  | Some (x, s) => Some (x, (m, s))
  end.

Definition memfs (fuel : nat) (clock : Z -> Z)
  : Filesystem (Memory * storage) file :=
  {| fs_Create := fun p '(m, s) => onStorage m (Memory_Create fuel m p s);
     fs_Open := fun p '(m, s) => onStorage m (Memory_Open fuel m p s);
     fs_OpenFile := fun p fl perm '(m, s) =>
       onStorage m (Memory_OpenFile fuel m p fl perm s);
     fs_TempFile := fun dir prefix '(m, s) =>
       match Memory_TempFile fuel clock m dir prefix s with
       | None => None
       | Some (r, m', s') => Some (r, (m', s'))
       end;
     fs_Rename := fun from to '(m, s) =>
       onStorage m (Some (Memory_Rename m from to s));
     fs_Remove := fun p '(m, s) => onStorage m (Some (Memory_Remove m p s));
     fs_MkdirAll := fun p perm '(m, s) =>
       onStorage m (Some (Memory_MkdirAll m p perm s));
     fs_Stat := fun p '(m, s) =>
       onStorage m (option_map (fun r => (r, s)) (Memory_Stat fuel m p s));
     fs_Lstat := fun p '(m, s) => Some (Memory_Lstat m p s, (m, s));
     fs_ReadDir := fun p '(m, s) =>
       onStorage m (option_map (fun r => (r, s)) (Memory_ReadDir fuel m p s));
     fs_Join := Memory_Join;
     fs_Symlink := fun target link '(m, s) =>
       onStorage m (Memory_Symlink fuel m target link s);
     fs_Readlink := fun p '(m, s) => Some (Memory_Readlink m p s, (m, s));
     fs_Name := file_Name |}.

(** ** Notions used in the statements *)

(** An element holds no separator. *)
Fixpoint nosep (s : string) : bool :=
  match s with
  | EmptyString => true
  | String c r => negb (isSep c) && nosep r
  end.

(** What [Clean] keeps: a real element, and no [..] in a rooted path. *)
Definition kept (rooted : bool) (e : string) : Prop :=
  nosep e = true /\ e <> "" /\ e <> "." /\ (rooted = true -> e <> "..").

(** The base of a filesystem is rooted: it is for [New], and [Chroot] keeps
    it so. *)
Definition rooted (fs : Memory) : Prop := HasPrefix (base fs) "/" = true.

(** The path that [n] symlinks lead to from [path]: every path on the way
    is within the boundary, the first [n] hold symlink nodes and the last
    holds a node that is not a symlink, or none. *)
Fixpoint chainEnd (n : nat) (fs : Memory) (path : string) (s : storage)
  : option string :=
  let fullpath := Memory_fullpath fs path in
  match n with
  | O =>
      match Memory_getFromStorage fs fullpath s with
      | Ok f => if isSymlink (mode f) then None else Some fullpath
      | Err err => if IsNotExist err then Some fullpath else None
      end
  | S n' =>
      match Memory_getFromStorage fs fullpath s with
      | Ok f =>
          match Memory_resolveLink fs fullpath f s with
          | (target, true) => chainEnd n' fs target s
          | (_, false) => None
          end
      | Err _ => None
      end
  end.

(** The node that [n] symlinks lead to from [path], when there is one. *)
Definition followLinks (n : nat) (fs : Memory) (path : string) (s : storage)
  : option file :=
  match chainEnd n fs path s with
  | Some q => storage_Get q s
  | None => None
  end.

(** [n] symlinks lead from [path] to a path that holds no node: for
    [n] above zero, a dangling symlink. *)
Definition followToFree (n : nat) (fs : Memory) (path : string) (s : storage)
  : option string :=
  match chainEnd n fs path s with
  | Some q => match storage_Get q s with
              | Some _ => None
              | None => Some q
              end
  | None => None
  end.

(** The nodes own their buffers: every node's buffer was allocated, and no
    two nodes share one. *)
Definition owned (s : storage) : Prop :=
  map_Forall (fun _ f => (content f < next s)%nat) (files s)
  /\ NoDup ((fun kf => content (snd kf)) <$> map_to_list (files s)).

(** Reading a handle to the end, as [ioutil.ReadAll] does: [Read] into a
    buffer of [chunk] bytes until the end-of-data signal, which is not
    reported as an error.  [None] is more than [fuel] reads. *)
Fixpoint readAll (fuel chunk : nat) (f : file) (s : storage)
  : option (list Byte.byte * option error) :=
  match fuel with
  | O => None
  | S fuel' =>
      let '((data, err), f') := file_Read f chunk s in
      match err with
      | Some EOF => Some (data, None)
      | Some e => Some (data, Some e)
      | None =>
          match readAll fuel' chunk f' s with
          | None => None
          | Some (rest, e) => Some (data ++ rest, e)
          end
      end
  end.

(** The end of [OpenFile]: the handle on a node that is not a directory. *)
Definition opened (fs : Memory) (q : string) (f : file) (fl perm : Z)
    (s : storage) : file * storage :=
  file_Duplicate f (default "" (Rel (base fs) q)) perm fl s.

(** A directory node is at [q]. *)
Definition isDirAt (q : string) (s : storage) : bool :=
  match files s !! q with
  | Some f => IsDir (mode f)
  | None => false
  end.

(** [s'] has the nodes of [s], the buffers allocated in [s] as they are in
    [s], and at least as many locations allocated. *)
Definition extends (s s' : storage) : Prop :=
  (forall k g, files s !! k = Some g -> files s' !! k = Some g)
  /\ (forall l, (l < next s)%nat -> bytes s' l = bytes s l)
  /\ (next s <= next s')%nat.

(** [s'] has the symlink nodes of [s] with their targets. *)
Definition keepsLinks (s s' : storage) : Prop :=
  forall k g, files s !! k = Some g -> isSymlink (mode g) = true ->
    files s' !! k = Some g /\ bytes s' (content g) = bytes s (content g).

(** The candidate name that [TempFile] makes when it sets the counter to
    [c], under the base [b]. *)
Definition tempName (clock : Z -> Z) (b dir prefix : string) (c : Z) : string :=
  Memory_Join [b; dir; prefix +:+ "_" +:+ pretty c +:+ "_" +:+ pretty (clock c)].

(** ** Example states *)

(** A storage with the file [/dir/c] holding [hello], the symlink [/b] to
    [dir/c] and the symlink [/a] to [b], built by the operations. *)
Definition exStorage : storage :=
  match Memory_Create 1 New "/dir/c" newStorage with
  | Some (Ok h, s) =>
      let s := (file_Write h (list_byte_of_string "hello") s).2 in
      match Memory_Symlink 2 New "dir/c" "/b" s with
      | Some (_, s) =>
          match Memory_Symlink 3 New "b" "/a" s with
          | Some (_, s) => s
          | None => newStorage
          end
      | None => newStorage
      end
  | _ => newStorage
  end.

(** The node of [exStorage] at [/dir/c]. *)
Definition exFile : file := mkFile "c" 0%nat 0 createFlags createPerm false.

#[global] Instance owned_dec (s : storage) : Decision (owned s).
Proof. unfold owned. apply _. Defined.

(** The filesystem rooted at [/a] ([Chroot "/a"] of [New]). *)
Definition exChroot : Memory := mkMemory "/a" 0.

(** A storage with the file [/a/link], made through [exChroot]. *)
Definition exStorageA : storage :=
  match Memory_Create 1 exChroot "link" newStorage with
  | Some (_, s) => s
  | None => newStorage
  end.

(** A storage with the symlink [/a] to [b] and no node at [/b]. *)
Definition exDangling : storage :=
  match Memory_Symlink 1 New "b" "/a" newStorage with
  | Some (_, s) => s
  | None => newStorage
  end.

(** The node of [exDangling] at [/a]. *)
Definition exLink : file := mkFile "a" 0%nat 0 writeFlags linkMode false.

(** A clock that stands still. *)
Definition exClock : Z -> Z := fun _ => 1500000000000000000.

(** [k] calls of [TempFile] in a row on one filesystem, all successful. *)
Fixpoint tempCalls (k : nat) (fs : Memory) (s : storage)
  : option (Memory * storage) :=
  match k with
  | O => Some (fs, s)
  | S k' =>
      match Memory_TempFile 1 exClock fs "tmp" "f" s with
      | Some (Ok _, fs', s') => tempCalls k' fs' s'
      | _ => None
      end
  end.

(** ** Notions of the further properties *)

(** [q] is under [b]: the elements of [b] and then [rest]. *)
Definition under (b q : string) (rest : list string) : Prop :=
  elems (Clean q) = elems (Clean b) ++ rest.

(** The first of the elements begins with two dots. *)
Definition climbs (rest : list string) : bool :=
  match rest with
  | e :: _ => HasPrefix e ".."
  | [] => false
  end.

(** The paths of [P] hold symlinks, each to a path of [P]: a set of
    symlinks closed under following them, as a cycle is. *)
Definition linksWithin (P : string -> Prop) (fs : Memory) (s : storage)
  : Prop :=
  forall p, P p ->
    exists (f : file) (t : string),
      Memory_getFromStorage fs (Memory_fullpath fs p) s = Ok f
      /\ Memory_resolveLink fs (Memory_fullpath fs p) f s = (t, true)
      /\ P t.

(** The listing of [ReadDir] for the directory at [q]. *)
Definition listing (q : string) (s : storage) : list fileInfo :=
  map (fun f => file_Stat f s) (storage_Children q s).

(** Two symlinks that lead to each other: [/a] to [b] and [/b] to [a]. *)
Definition exCycle : storage :=
  match Memory_Symlink 1 New "a" "/b" exDangling with
  | Some (_, s) => s
  | None => newStorage
  end.

(** The elements of a path that [Clean] keeps, and the path that [Clean]
    makes of them. *)
Definition pathElems (p : string) : list string :=
  cleanElems (HasPrefix p "/") (splitSep p).

Definition fromElems (rooted : bool) (l : list string) : string :=
  if rooted then "/" +:+ joinSep l
  else match l with
       | [] => "."
       | _ => joinSep l
       end.

(** The handle of the temp file that [exChroot] makes first in the storage
    without a node, and the storage after. *)
Definition exTempHandle : file :=
  mkFile "a/tmp/f_1_1500000000000000000" 0%nat 0 createFlags createPerm false.

Definition exTempStorage : storage :=
  match Memory_TempFile 1 exClock exChroot "tmp" "f" newStorage with
  | Some (_, _, s) => s
  | None => newStorage
  end.

(** The handle that [Open] of [/a] returns on [exStorage], through the
    symlinks to [/dir/c]. *)
Definition exOpened : file := mkFile "dir/c" 0%nat 0 O_RDONLY 0 false.

(** The subdirectory [sub] of a [Memory], its handles paired with their
    names. *)
Definition exSub : SubDir (Memory * storage) file :=
  SubDir_New (memfs 1 exClock) "sub".

Definition exNewFile (fs : SubDir (Memory * storage) file) (f : file)
    (filename : string) : file * string :=
  (f, filename).

(** * Properties *)

(** ** Lexical paths *)

Lemma splitSep_cons (s : string) : exists e l, splitSep s = e :: l.
Proof.
  destruct s as [|c r]; simpl; [eauto|].
  destruct (isSep c); [eauto|]. destruct (splitSep r); eauto.
Qed.

Lemma splitSep_nosep (s : string) :
  Forall (fun e => nosep e = true) (splitSep s).
Proof.
  induction s as [|c r IH]; simpl.
  - repeat constructor.
  - destruct (isSep c) eqn:Hc.
    + constructor; [reflexivity|exact IH].
    + destruct (splitSep r) as [|w ws].
      * repeat constructor. simpl. now rewrite Hc.
      * inversion IH; subst. constructor; [|assumption].
        simpl. rewrite Hc. assumption.
Qed.

Lemma splitSep_of_nosep (x : string) : nosep x = true -> splitSep x = [x].
Proof.
  induction x as [|c r IH]; simpl; [reflexivity|].
  intros [Hc Hr]%andb_prop. apply negb_true_iff in Hc. rewrite Hc.
  now rewrite (IH Hr).
Qed.

Lemma splitSep_app (x r : string) :
  nosep x = true -> splitSep (x +:+ String "/" r) = x :: splitSep r.
Proof.
  induction x as [|c x IH]; simpl; [reflexivity|].
  intros [Hc Hx]%andb_prop. apply negb_true_iff in Hc. rewrite Hc.
  now rewrite (IH Hx).
Qed.

Lemma splitSep_joinSep (l : list string) :
  l <> [] -> Forall (fun e => nosep e = true) l -> splitSep (joinSep l) = l.
Proof.
  induction l as [|x l IH]; [congruence|]. intros _ Hl.
  inversion Hl as [|? ? Hx Hl']; subst.
  destruct l as [|y l].
  - simpl. now apply splitSep_of_nosep.
  - change (joinSep (x :: y :: l)) with (x +:+ String "/" (joinSep (y :: l))).
    rewrite splitSep_app by assumption. f_equal. now apply IH.
Qed.

Lemma cleanStep_kept (rooted : bool) (out : list string) (e : string) :
  Forall (kept rooted) out -> nosep e = true ->
  Forall (kept rooted) (cleanStep rooted out e).
Proof.
  intros Hout He. unfold cleanStep.
  destruct (String.eqb_spec e "") as [->|Hne]; [assumption|].
  destruct (String.eqb_spec e ".") as [->|Hnd]; [assumption|]. simpl.
  destruct (String.eqb_spec e "..") as [->|Hndd].
  - destruct out as [|top rest].
    + destruct rooted; [constructor|].
      repeat constructor; congruence.
    + inversion Hout as [|? ? Htop Hrest]; subst.
      destruct (String.eqb_spec top "..") as [->|_]; [|assumption].
      constructor; [|assumption]. exact Htop.
  - constructor; [|assumption]. repeat split; auto.
Qed.

Lemma cleanElems_kept (rooted : bool) (l : list string) :
  Forall (fun e => nosep e = true) l -> Forall (kept rooted) (cleanElems rooted l).
Proof.
  unfold cleanElems. intros Hl. apply Forall_rev.
  assert (H : forall out, Forall (kept rooted) out ->
            Forall (kept rooted) (fold_left (cleanStep rooted) l out)).
  { induction Hl as [|e l He Hl IH]; intros out Hout; simpl; [assumption|].
    apply IH. now apply cleanStep_kept. }
  apply H. constructor.
Qed.

Lemma HasPrefix_sep (p : string) :
  HasPrefix p "/" = true -> exists r, p = String "/" r.
Proof.
  destruct p as [|c r]; [discriminate|]. cbn [HasPrefix].
  destruct (Ascii.eqb_spec "/" c) as [<-|]; [eauto|discriminate].
Qed.

Lemma Clean_rooted (p : string) :
  HasPrefix p "/" = true ->
  Clean p = "/" +:+ joinSep (cleanElems true (splitSep p)).
Proof.
  intros Hp. destruct (HasPrefix_sep p Hp) as [r ->].
  unfold Clean. rewrite Hp. reflexivity.
Qed.

Lemma HasPrefix_Clean (p : string) :
  HasPrefix p "/" = true -> HasPrefix (Clean p) "/" = true.
Proof. intros Hp. rewrite (Clean_rooted p Hp). reflexivity. Qed.

Lemma filter_kept (rooted : bool) (l : list string) :
  Forall (kept rooted) l ->
  List.filter (fun e => negb (String.eqb e "")) l = l.
Proof.
  induction 1 as [|e l He Hl IH]; [reflexivity|].
  simpl. destruct He as (_ & Hne & _).
  destruct (String.eqb_spec e ""); [contradiction|]. simpl. now rewrite IH.
Qed.

Lemma elems_Clean_rooted (p : string) :
  HasPrefix p "/" = true -> elems (Clean p) = cleanElems true (splitSep p).
Proof.
  intros Hp. rewrite (Clean_rooted p Hp).
  pose proof (cleanElems_kept true (splitSep p) (splitSep_nosep p)) as Hk.
  unfold elems. change ("/" +:+ ?s) with (String "/" s).
  cbn [splitSep isSep Ascii.eqb Separator Bool.eqb List.filter String.eqb negb].
  destruct (cleanElems true (splitSep p)) as [|e l] eqn:He; [reflexivity|].
  rewrite splitSep_joinSep; [|congruence|].
  - now apply (filter_kept true).
  - eapply Forall_impl; [exact Hk|]. now intros ? (? & _).
Qed.

Lemma dropCommon_suffix (b t : list string) :
  forall e, e ∈ (dropCommon b t).1 -> e ∈ b.
Proof.
  revert t. induction b as [|x b IH]; intros t e; simpl; [easy|].
  destruct t as [|y t]; simpl; [easy|].
  destruct (String.eqb x y); simpl; [|easy].
  intros H. right. eapply IH. exact H.
Qed.

(** [filepath.Rel] does not fail between two rooted paths. *)
Lemma Rel_rooted (b t : string) :
  HasPrefix b "/" = true -> HasPrefix t "/" = true -> is_Some (Rel b t).
Proof.
  intros Hb Ht. unfold Rel.
  destruct (String.eqb (Clean t) (Clean b)); [eauto|].
  pose proof (HasPrefix_Clean b Hb) as Hcb.
  pose proof (HasPrefix_Clean t Ht) as Hct.
  destruct (String.eqb_spec (Clean b) ".") as [E|_].
  { rewrite E in Hcb. discriminate. }
  rewrite Hcb, Hct. simpl.
  destruct (dropCommon (elems (Clean b)) (elems (Clean t))) as [b' t'] eqn:Hd.
  destruct b' as [|e b'']; [eauto|].
  destruct (String.eqb_spec e "..") as [->|_]; [|eauto].
  exfalso.
  assert (Hin : ".." ∈ elems (Clean b)).
  { apply (dropCommon_suffix _ (elems (Clean t))). rewrite Hd. left. }
  rewrite (elems_Clean_rooted b Hb) in Hin.
  pose proof (cleanElems_kept true (splitSep b) (splitSep_nosep b)) as Hk.
  rewrite Forall_forall in Hk. destruct (Hk _ Hin) as (_ & _ & _ & Hdd).
  now apply Hdd.
Qed.

Lemma HasPrefix_Join (b p : string) :
  HasPrefix b "/" = true -> HasPrefix (Join [b; p]) "/" = true.
Proof.
  intros Hb. destruct (HasPrefix_sep b Hb) as [r ->].
  change (Join [String "/" r; p]) with (Clean (joinSep [String "/" r; p])).
  apply HasPrefix_Clean. reflexivity.
Qed.


(** ** Cleaning a path before it is joined to the base *)

Lemma splitSep_sep (x y : string) :
  splitSep (x +:+ String "/" y) = splitSep x ++ splitSep y.
Proof.
  induction x as [|c x IH]; [reflexivity|].
  change (String c x +:+ String "/" y) with (String c (x +:+ String "/" y)).
  cbn [splitSep]. rewrite IH. destruct (isSep c); [reflexivity|].
  destruct (splitSep_cons x) as (e & l & ->). reflexivity.
Qed.

Lemma cleanStep_real (r : bool) (out : list string) (e : string) :
  e <> "" -> e <> "." -> e <> ".." -> cleanStep r out e = e :: out.
Proof.
  intros H1 H2 H3. unfold cleanStep.
  destruct (String.eqb_spec e ""); [contradiction|].
  destruct (String.eqb_spec e "."); [contradiction|].
  destruct (String.eqb_spec e ".."); [contradiction|]. reflexivity.
Qed.

(** One step of the scan of a path that is not rooted, seen from the output
    [S] of a rooted scan. *)
Lemma cleanStep_commute (S acc : list string) (e : string) :
  Forall (kept false) acc ->
  cleanStep true (fold_left (cleanStep true) (rev acc) S) e
  = fold_left (cleanStep true) (rev (cleanStep false acc e)) S.
Proof.
  intros Hacc.
  destruct (String.eqb_spec e "") as [->|Hne]; [reflexivity|].
  destruct (String.eqb_spec e ".") as [->|Hnd]; [reflexivity|].
  destruct (String.eqb_spec e "..") as [->|Hndd].
  - destruct acc as [|top rest]; [reflexivity|].
    inversion Hacc as [|? ? (_ & Ht1 & Ht2 & _) _]; subst.
    destruct (String.eqb_spec top "..") as [->|Htop].
    + change (cleanStep false (".." :: rest) "..") with (".." :: ".." :: rest).
      cbn [rev]. now rewrite !fold_left_app.
    + assert (Hs : cleanStep false (top :: rest) ".." = rest).
      { unfold cleanStep. cbn [String.eqb Ascii.eqb Bool.eqb orb].
        now destruct (String.eqb_spec top ".."). }
      rewrite Hs. cbn [rev]. rewrite fold_left_app. cbn [fold_left].
      rewrite (cleanStep_real true _ top) by assumption.
      unfold cleanStep. cbn [String.eqb Ascii.eqb Bool.eqb orb].
      now destruct (String.eqb_spec top "..").
  - rewrite (cleanStep_real false acc e) by assumption.
    cbn [rev]. rewrite fold_left_app. reflexivity.
Qed.

(** Scanning the elements of a path from the output [S] of a rooted scan
    comes to the same as scanning its cleaned elements: what the scan of a
    path that is not rooted has kept, [acc], then the elements [l]. *)
Lemma cleanStep_normal (S : list string) (l : list string) :
  forall acc : list string,
    Forall (kept false) acc ->
    Forall (fun e => nosep e = true) l ->
    fold_left (cleanStep true) l (fold_left (cleanStep true) (rev acc) S)
    = fold_left (cleanStep true) (rev (fold_left (cleanStep false) l acc)) S.
Proof.
  induction l as [|e l IH]; intros acc Hacc Hl; [reflexivity|].
  inversion Hl as [|? ? He Hl']; subst. cbn [fold_left].
  rewrite <- (IH (cleanStep false acc e)); [|now apply cleanStep_kept|assumption].
  f_equal. now apply cleanStep_commute.
Qed.

(** A path that is not rooted may be cleaned before it is joined to a
    rooted base: [fullpath] is the same.  ([Symlink] tests the link path as
    given and writes the cleaned one.) *)
Lemma fullpath_clean (fs : Memory) (p : string) :
  rooted fs -> HasPrefix p "/" = false ->
  Memory_fullpath fs (clean p) = Memory_fullpath fs p.
Proof.
  intros Hfs Hp. destruct (HasPrefix_sep (base fs) Hfs) as [b Hb].
  unfold Memory_fullpath, Memory_Join, clean, FromSlash. f_equal.
  assert (HJ : forall x, Join [base fs; x]
                 = "/" +:+ joinSep (cleanElems true
                                      (splitSep (base fs) ++ splitSep x))).
  { intros x. rewrite Hb.
    change (Join [String "/" b; x])
      with (Clean (String "/" b +:+ String "/" x)).
    rewrite Clean_rooted by reflexivity. now rewrite splitSep_sep. }
  rewrite !HJ. f_equal. f_equal. unfold cleanElems. f_equal.
  rewrite !fold_left_app.
  set (S := fold_left (cleanStep true) (splitSep (base fs)) []).
  pose proof (cleanStep_normal S (splitSep p) [] (List.Forall_nil _)
                (splitSep_nosep p)) as Hn.
  cbn [rev fold_left] in Hn. rewrite Hn.
  pose proof (cleanElems_kept false (splitSep p) (splitSep_nosep p)) as Hk.
  unfold cleanElems in Hk.
  unfold Clean. rewrite Hp.
  destruct (String.eqb_spec p "") as [->|Hne]; [reflexivity|].
  unfold cleanElems.
  destruct (rev (fold_left (cleanStep false) (splitSep p) [])) as [|e l] eqn:Hout;
    [reflexivity|].
  rewrite splitSep_joinSep; [reflexivity|congruence|].
  eapply Forall_impl; [exact Hk|]. now intros ? (? & _).
Qed.

(** ** Symlink chains *)

Lemma fullpath_rooted (fs : Memory) (p : string) :
  rooted fs -> HasPrefix (Memory_fullpath fs p) "/" = true.
Proof.
  intros Hfs. unfold Memory_fullpath, clean, FromSlash, Memory_Join.
  apply HasPrefix_Clean. now apply HasPrefix_Join.
Qed.

Lemma resolveLink_not_link (fs : Memory) (fullpath : string) (f : file)
    (s : storage) :
  isSymlink (mode f) = false ->
  Memory_resolveLink fs fullpath f s = (fullpath, false).
Proof. intros H. unfold Memory_resolveLink. now rewrite H. Qed.

Lemma resolveLink_link (fs : Memory) (fullpath : string) (f : file)
    (s : storage) (t : string) :
  Memory_resolveLink fs fullpath f s = (t, true) -> isSymlink (mode f) = true.
Proof.
  unfold Memory_resolveLink. destruct (isSymlink (mode f)); [easy|].
  simpl. congruence.
Qed.

Lemma getFromStorage_Ok (fs : Memory) (q : string) (s : storage) (f : file) :
  Memory_getFromStorage fs q s = Ok f <->
  Memory_validate fs q = None /\ files s !! q = Some f.
Proof.
  unfold Memory_getFromStorage, storage_Get.
  destruct (Memory_validate fs q); [split; [easy|intros [? _]; easy]|].
  destruct (files s !! q); split; try easy.
  - intros [= ->]. easy.
  - intros [_ [= ->]]. easy.
Qed.

Lemma getFromStorage_NotExist (fs : Memory) (q : string) (s : storage)
    (e : error) :
  Memory_getFromStorage fs q s = Err e -> IsNotExist e = true ->
  Memory_validate fs q = None /\ files s !! q = None.
Proof.
  unfold Memory_getFromStorage, storage_Get.
  destruct (Memory_validate fs q) as [e'|] eqn:Hv.
  - unfold Memory_validate in Hv.
    destruct (HasPrefix _ _); [|discriminate]. injection Hv as <-.
    intros [= <-]. discriminate.
  - destruct (files s !! q); [discriminate|easy].
Qed.

(** The errors of [getFromStorage]. *)
Lemma getFromStorage_Err (fs : Memory) (q : string) (s : storage) (e : error) :
  Memory_getFromStorage fs q s = Err e ->
  e = ErrNotExist \/ e = ErrCrossedBoundary.
Proof.
  unfold Memory_getFromStorage, Memory_validate.
  destruct (HasPrefix _ _); [intros [= <-]; now right|].
  destruct (storage_Get q s); [discriminate|]. intros [= <-]. now left.
Qed.

(** The path at the end of a chain is within the boundary, and a node there
    is not a symlink. *)
Lemma chainEnd_end (n : nat) :
  forall (fs : Memory) (p : string) (s : storage) (q : string),
    chainEnd n fs p s = Some q ->
    Memory_validate fs q = None
    /\ (forall f, files s !! q = Some f -> isSymlink (mode f) = false)
    /\ exists p', q = Memory_fullpath fs p'.
Proof.
  induction n as [|n IH]; intros fs p s q; simpl.
  - destruct (Memory_getFromStorage fs (Memory_fullpath fs p) s) as [f|e] eqn:Hg.
    + destruct (isSymlink (mode f)) eqn:Hl; [discriminate|]. intros [= <-].
      apply getFromStorage_Ok in Hg as [Hv Hf].
      split; [assumption|]. split; [|eauto]. intros g Hg'. congruence.
    + destruct (IsNotExist e) eqn:He; [|discriminate]. intros [= <-].
      destruct (getFromStorage_NotExist _ _ _ _ Hg He) as [Hv Hf].
      split; [assumption|]. split; [|eauto]. intros g Hg'. congruence.
  - destruct (Memory_getFromStorage fs (Memory_fullpath fs p) s) as [f|e];
      [|discriminate].
    destruct (Memory_resolveLink fs (Memory_fullpath fs p) f s) as [t [|]];
      [|discriminate].
    apply IH.
Qed.

(** [Stat] reaches the end of a chain of [n] links with more fuel than [n]:
    it reports the size and mode of the last node under the base name of the
    path it was asked. *)
Lemma Stat_followLinks (n : nat) :
  forall (fuel : nat) (fs : Memory) (p : string) (s : storage) (c : file),
    followLinks n fs p s = Some c -> (n < fuel)%nat ->
    Memory_Stat fuel fs p s =
      Some (Ok (mkFileInfo (Base p) (content_Len (content c) s) (mode c))).
Proof.
  unfold followLinks, storage_Get.
  induction n as [|n IH]; intros fuel fs p s c Hc Hfuel;
    (destruct fuel as [|fuel]; [lia|]); simpl in Hc |- *;
    destruct (Memory_getFromStorage fs (Memory_fullpath fs p) s) as [f|e] eqn:Hg;
    try discriminate.
  - destruct (isSymlink (mode f)) eqn:Hl; [discriminate|].
    apply getFromStorage_Ok in Hg as [_ Hf].
    rewrite Hf in Hc. injection Hc as ->. now rewrite resolveLink_not_link.
  - destruct (IsNotExist e) eqn:He; [|discriminate].
    destruct (getFromStorage_NotExist _ _ _ _ Hg He) as [_ Hf]. congruence.
  - destruct (Memory_resolveLink fs (Memory_fullpath fs p) f s) as [t [|]];
      [|discriminate].
    rewrite (IH fuel fs t s c Hc) by lia. reflexivity.
Qed.

(** [OpenFile] reaches the end of a chain of [n] links with more fuel than
    [n] and duplicates the node there, unless it is a directory. *)
Lemma OpenFile_chain_node (n : nat) :
  forall (fuel : nat) (fs : Memory) (p : string) (s : storage) (q : string)
         (f : file) (fl perm : Z),
    rooted fs -> chainEnd n fs p s = Some q -> files s !! q = Some f ->
    (n < fuel)%nat -> IsDir (mode f) = false ->
    Memory_OpenFile fuel fs p fl perm s =
      Some (Ok (opened fs q f fl perm s).1, (opened fs q f fl perm s).2).
Proof.
  induction n as [|n IH]; intros fuel fs p s q f fl perm Hfs Hq Hf Hfuel Hdir;
    (destruct fuel as [|fuel]; [lia|]); simpl in Hq |- *;
    destruct (Memory_getFromStorage fs (Memory_fullpath fs p) s) as [g|e] eqn:Hg;
    try discriminate.
  - destruct (isSymlink (mode g)) eqn:Hl; [discriminate|].
    injection Hq as <-. apply getFromStorage_Ok in Hg as [_ Hg].
    assert (g = f) as -> by congruence.
    rewrite resolveLink_not_link by assumption.
    unfold OpenFile_end. rewrite Hdir.
    destruct (Rel_rooted (base fs) (Memory_fullpath fs p)) as [nm Hnm];
      [exact Hfs|now apply fullpath_rooted|].
    unfold opened. rewrite Hnm. simpl.
    now destruct (file_Duplicate f nm perm fl s).
  - destruct (IsNotExist e) eqn:He; [|discriminate]. injection Hq as <-.
    destruct (getFromStorage_NotExist _ _ _ _ Hg He) as [_ Hf']. congruence.
  - destruct (Memory_resolveLink fs (Memory_fullpath fs p) g s) as [t [|]];
      [|discriminate].
    apply (IH fuel fs t s q f); auto with lia.
Qed.

(** At the end of a chain that holds no node, [OpenFile] with the create
    flag makes the node with [storage.New] and duplicates it. *)
Lemma OpenFile_chain_free (n : nat) :
  forall (fuel : nat) (fs : Memory) (p : string) (s : storage) (q : string)
         (fl perm : Z),
    rooted fs -> chainEnd n fs p s = Some q -> files s !! q = None ->
    (n < fuel)%nat -> isCreate fl = true -> IsDir perm = false ->
    exists f s0,
      storage_New q perm fl s = (Ok f, s0) /\
      Memory_OpenFile fuel fs p fl perm s =
        Some (Ok (opened fs q f fl perm s0).1, (opened fs q f fl perm s0).2).
Proof.
  induction n as [|n IH]; intros fuel fs p s q fl perm Hfs Hq Hf Hfuel Hc Hdir;
    (destruct fuel as [|fuel]; [lia|]); simpl in Hq |- *;
    destruct (Memory_getFromStorage fs (Memory_fullpath fs p) s) as [g|e] eqn:Hg;
    try discriminate.
  - destruct (isSymlink (mode g)) eqn:Hl; [discriminate|].
    injection Hq as <-. apply getFromStorage_Ok in Hg as [_ Hg]. congruence.
  - destruct (IsNotExist e) eqn:He; [|discriminate]. injection Hq as <-.
    rewrite Hc. simpl.
    unfold storage_New. rewrite Hf, Hc, orb_true_r.
    destruct (insertNode (Memory_fullpath fs p) perm fl s) as [f s1] eqn:Hi.
    eexists _, _. split; [reflexivity|].
    assert (mode f = perm) as Hm.
    { unfold insertNode in Hi. now injection Hi as <- _. }
    unfold OpenFile_end. rewrite Hm, Hdir.
    destruct (Rel_rooted (base fs) (Memory_fullpath fs p)) as [nm Hnm];
      [exact Hfs|now apply fullpath_rooted|].
    unfold opened. rewrite Hnm. simpl. reflexivity.
  - destruct (Memory_resolveLink fs (Memory_fullpath fs p) g s) as [t [|]];
      [|discriminate].
    apply (IH fuel fs t s q); auto with lia.
Qed.

Lemma length_string_of_list_byte (l : list Byte.byte) :
  String.length (string_of_list_byte l) = length l.
Proof.
  induction l as [|b l IH]; [reflexivity|].
  change (S (String.length (string_of_list_byte l)) = S (length l)).
  now rewrite IH.
Qed.

(** C3.  For every chain of symlinks from a path to a node that is not a
    symlink, of any length and so for a chain a -> b -> c, [Stat] of the
    path returns, given more fuel than there are links, the size and the
    mode of the node at the end and the base name of the path asked. *)
Theorem Stat_symlink_chain (n fuel : nat) (fs : Memory) (a : string)
    (s : storage) (c : file) :
  followLinks n fs a s = Some c -> (n < fuel)%nat ->
  exists fi, Memory_Stat fuel fs a s = Some (Ok fi)
    /\ fi_size fi = content_Len (content c) s
    /\ fi_mode fi = mode c
    /\ fi_name fi = Base a.
Proof.
  intros Hc Hfuel. rewrite (Stat_followLinks n fuel fs a s c Hc Hfuel).
  eexists. split; [reflexivity|]. repeat split.
Qed.

(** C4.  At a path that holds a symlink node, [Lstat] returns that node's
    own metadata, whatever else the storage holds: its mode, with the
    symlink bit, and as size the length of the target string that
    [Readlink] returns. *)
Theorem Lstat_reports_link (fs : Memory) (p : string) (s : storage) (f : file) :
  Memory_getFromStorage fs (Memory_fullpath fs p) s = Ok f ->
  isSymlink (mode f) = true ->
  exists fi target,
    Memory_Lstat fs p s = Ok fi
    /\ Memory_Readlink fs p s = Ok target
    /\ fi_mode fi = mode f
    /\ isSymlink (fi_mode fi) = true
    /\ fi_size fi = Z.of_nat (String.length target)
    /\ fi_name fi = name f.
Proof.
  intros Hf Hl. unfold Memory_Lstat, Memory_Readlink. rewrite Hf, Hl.
  eexists _, _. repeat split; [assumption|].
  simpl. unfold content_Len. now rewrite length_string_of_list_byte.
Qed.

(** ** Handles and buffers *)

Lemma followLinks_inv (n : nat) (fs : Memory) (p : string) (s : storage)
    (f : file) :
  followLinks n fs p s = Some f ->
  exists q, chainEnd n fs p s = Some q /\ files s !! q = Some f.
Proof.
  unfold followLinks, storage_Get.
  destruct (chainEnd n fs p s) as [q|]; [eauto|discriminate].
Qed.

Lemma bytes_setBytes (c c' : loc) (b : list Byte.byte) (s : storage) :
  bytes (setBytes c b s) c' = if decide (c = c') then b else bytes s c'.
Proof.
  unfold bytes, setBytes. simpl. rewrite lookup_insert.
  now destruct (decide (c = c')).
Qed.

Lemma bytes_setBytes_eq (c : loc) (b : list Byte.byte) (s : storage) :
  bytes (setBytes c b s) c = b.
Proof. rewrite bytes_setBytes. now destruct (decide (c = c)). Qed.

(** The handle that [Duplicate] makes. *)
Lemma Duplicate_handle (f : file) (nm : string) (perm fl : Z) (s : storage) :
  let h := (file_Duplicate f nm perm fl s).1 in
  content h = content f /\ flag h = fl /\ isClosed h = false
  /\ position h = (if isAppend fl then content_Len (content f) s else 0).
Proof. unfold file_Duplicate. simpl. destruct (isAppend fl); simpl; auto. Qed.

Lemma Duplicate_storage (f : file) (nm : string) (perm fl : Z) (s : storage) :
  (file_Duplicate f nm perm fl s).2 =
    if isTruncate fl then content_Truncate (content f) s else s.
Proof.
  unfold file_Duplicate. simpl.
  destruct (isTruncate fl); [|reflexivity]. now destruct (isAppend fl).
Qed.

Lemma ReadAt_empty (h : file) (len : nat) (off : Z) (s : storage) :
  bytes s (content h) = [] -> (file_ReadAt h len off s).1 = [].
Proof.
  intros Hb. unfold file_ReadAt, content_ReadAt, content_Len.
  destruct (isClosed h); [reflexivity|].
  destruct (_ && _); [reflexivity|].
  destruct (off <? 0); [reflexivity|]. rewrite Hb.
  destruct (_ <=? off); [reflexivity|]. simpl.
  now rewrite drop_nil, take_nil.
Qed.

(** C5.  Opening a path that leads to an existing file with the truncate
    flag set, the create flag set or not, returns a handle on the buffer of
    the file, and the buffer is then of length zero, whatever it held, for
    this handle and for every handle that shares it: no byte is read
    through any of them. *)
Theorem Truncate_on_reopen (n fuel : nat) (fs : Memory) (p : string)
    (s : storage) (f : file) (fl perm : Z) :
  rooted fs -> followLinks n fs p s = Some f -> IsDir (mode f) = false ->
  (n < fuel)%nat -> isTruncate fl = true ->
  exists h s',
    Memory_OpenFile fuel fs p fl perm s = Some (Ok h, s')
    /\ content h = content f
    /\ content_Len (content h) s' = 0
    /\ forall h' : file, content h' = content h ->
         content_Len (content h') s' = 0
         /\ forall len off, (file_ReadAt h' len off s').1 = [].
Proof.
  intros Hfs Hf Hdir Hfuel Ht.
  destruct (followLinks_inv _ _ _ _ _ Hf) as (q & Hq & Hfq).
  rewrite (OpenFile_chain_node n fuel fs p s q f fl perm) by assumption.
  unfold opened.
  destruct (Duplicate_handle f (default "" (Rel (base fs) q)) perm fl s)
    as (Hc & _).
  eexists _, _. split; [reflexivity|]. split; [exact Hc|].
  rewrite Duplicate_storage, Ht. 
  assert (Hb : forall h' : file, content h' = content f ->
            bytes (content_Truncate (content f) s) (content h') = []).
  { intros h' ->. apply bytes_setBytes_eq. }
  split.
  - unfold content_Len. now rewrite Hb.
  - intros h' Hh'. rewrite Hc in Hh'. split.
    + unfold content_Len. now rewrite Hb.
    + intros len off. apply ReadAt_empty. now apply Hb.
Qed.

Lemma wrap64_small (x : Z) : 0 <= x < 2 ^ 63 -> wrap64 x = x.
Proof.
  intros Hx. unfold wrap64. rewrite Z.mod_small; lia.
Qed.

(** A write at or past [L] leaves the first [L] bytes of the buffer as
    they are. *)
Lemma Write_keeps_prefix (h : file) (data : list Byte.byte) (s : storage)
    (L i : nat) :
  Z.of_nat L <= position h -> (i < L)%nat ->
  (i < length (bytes s (content h)))%nat ->
  bytes (file_Write h data s).2 (content h) !! i = bytes s (content h) !! i.
Proof.
  intros Hpos Hi Hlen. unfold file_Write.
  destruct (isClosed h); [reflexivity|].
  destruct (_ && _); [reflexivity|].
  unfold content_WriteAt.
  destruct (position h <? 0) eqn:Hneg; [reflexivity|]. simpl.
  rewrite bytes_setBytes_eq.
  assert (i < Z.to_nat (position h))%nat by lia.
  rewrite lookup_app_l.
  - rewrite lookup_take_lt by assumption. now rewrite lookup_app_l.
  - rewrite length_take, length_app, length_replicate. lia.
Qed.

(** A write moves the cursor forward, when the new cursor fits in
    [int64], and keeps the handle on its buffer. *)
Lemma Write_advances (h : file) (data : list Byte.byte) (s : storage) :
  0 <= position h -> position h + Z.of_nat (length data) < 2 ^ 63 ->
  position h <= position (file_Write h data s).1.2
  /\ content (file_Write h data s).1.2 = content h.
Proof.
  intros Hpos Hfit. unfold file_Write.
  destruct (isClosed h); [simpl; lia|].
  destruct (_ && _); [simpl; lia|].
  unfold content_WriteAt.
  destruct (position h <? 0) eqn:Hneg; [lia|]. simpl.
  rewrite wrap64_small by lia. lia.
Qed.

(** C6.  Opening a path that leads to an existing file with the append flag
    returns a handle whose cursor is the length [L] of the buffer at the
    open.  Let [h'] be that handle, or what it has become after writes and
    no seek, its cursor at or past [L]; whatever the storage [s2] has become
    when it writes, after the writes of other handles, the write leaves
    every byte below [L] as it is in [s2]: the bytes written before the open
    are not overwritten.  The write moves the cursor forward, so that the
    same holds of the write that follows. *)
Theorem Append_keeps_earlier_bytes (n fuel : nat) (fs : Memory) (p : string)
    (s : storage) (f : file) (fl perm : Z) :
  rooted fs -> followLinks n fs p s = Some f -> IsDir (mode f) = false ->
  (n < fuel)%nat -> isAppend fl = true ->
  exists h s1,
    Memory_OpenFile fuel fs p fl perm s = Some (Ok h, s1)
    /\ content h = content f
    /\ position h = content_Len (content f) s
    /\ forall (h' : file) (s2 : storage) (data : list Byte.byte),
         content h' = content h -> position h <= position h' ->
         (forall i : nat,
            (i < length (bytes s (content f)))%nat ->
            (i < length (bytes s2 (content f)))%nat ->
            bytes (file_Write h' data s2).2 (content f) !! i
              = bytes s2 (content f) !! i)
         /\ (position h' + Z.of_nat (length data) < 2 ^ 63 ->
             position h' <= position (file_Write h' data s2).1.2
             /\ content (file_Write h' data s2).1.2 = content h').
Proof.
  intros Hfs Hf Hdir Hfuel Ha.
  destruct (followLinks_inv _ _ _ _ _ Hf) as (q & Hq & Hfq).
  rewrite (OpenFile_chain_node n fuel fs p s q f fl perm) by assumption.
  unfold opened.
  destruct (Duplicate_handle f (default "" (Rel (base fs) q)) perm fl s)
    as (Hc & _ & _ & Hp).
  rewrite Ha in Hp.
  eexists _, _. split; [reflexivity|]. split; [exact Hc|].
  split; [exact Hp|].
  intros h' s2 data Hc' Hp'. rewrite Hc in Hc'. rewrite Hp in Hp'.
  unfold content_Len in Hp'. split.
  - intros i Hi Hi2. rewrite <- Hc'.
    apply (Write_keeps_prefix _ data s2 (length (bytes s (content f))));
      rewrite ?Hc'; assumption.
  - intros Hfit. apply Write_advances; lia.
Qed.

(** ** The directions of a handle *)

(** A handle opened with [O_RDONLY] and nothing else reads the buffer and
    does not write; a handle with the write-only bit and without the
    read-write bit writes and does not read. *)
Lemma handle_RDONLY (h : file) (s : storage) (len : nat) (off : Z)
    (p : list Byte.byte) :
  isClosed h = false -> flag h = O_RDONLY ->
  file_ReadAt h len off s = content_ReadAt (content h) len off s
  /\ file_Write h p s = ((0, Some (ErrorString "write not supported")), h, s).
Proof.
  intros Hc Hf. unfold file_ReadAt, file_Write. now rewrite Hc, Hf.
Qed.

Lemma handle_WRONLY (h : file) (s : storage) (len : nat) (off : Z)
    (p : list Byte.byte) :
  isClosed h = false -> isWriteOnly (flag h) = true ->
  isReadAndWrite (flag h) = false ->
  file_ReadAt h len off s = ([], Some (ErrorString "read not supported"))
  /\ file_Write h p s =
       (let '((n, err), s') := content_WriteAt (content h) p (position h) s in
        ((n, err), setPosition (wrap64 (position h + n)) h, s')).
Proof.
  intros Hc Hw Hrw. unfold file_ReadAt, file_Write, isReadOnly.
  rewrite Hc, Hw, Hrw. simpl. split; [|reflexivity].
  destruct (flag h =? O_RDONLY) eqn:H0; [|reflexivity].
  apply Z.eqb_eq in H0. rewrite H0 in Hw. discriminate.
Qed.

(** A handle whose flags have no write bit but some other bit reads
    nothing: [isReadOnly] compares the flags with [O_RDONLY]. *)
Lemma ReadAt_needs_exact_RDONLY (h : file) (s : storage) (len : nat) (off : Z) :
  isClosed h = false -> Z.land (flag h) (Z.lor O_WRONLY O_RDWR) = 0 ->
  flag h <> O_RDONLY ->
  file_ReadAt h len off s = ([], Some (ErrorString "read not supported")).
Proof.
  intros Hc Hbits Hne. unfold file_ReadAt, isReadAndWrite, isReadOnly.
  rewrite Hc.
  assert (H2 : Z.land (flag h) O_RDWR = 0).
  { change O_RDWR with (Z.land (Z.lor O_WRONLY O_RDWR) O_RDWR).
    now rewrite Z.land_assoc, Hbits. }
  rewrite H2. apply Z.eqb_neq in Hne. now rewrite Hne.
Qed.

(** C2, at a handle the code can make.  [/dir/c] holds [hello]; it is
    opened with [O_RDONLY|O_CREATE], flags without a write bit.  [ReadAt]
    through the handle fails with the read error and returns no byte; the
    claim has it return the bytes of the buffer. *)
Lemma ReadAt_refused_without_write_bits :
  exists (h : file) (s : storage),
    Memory_OpenFile 1 New "/dir/c" (Z.lor O_RDONLY O_CREATE) 0 exStorage
      = Some (Ok h, s)
    /\ Z.land (flag h) (Z.lor O_WRONLY O_RDWR) = 0
    /\ bytes s (content h) = list_byte_of_string "hello"
    /\ file_ReadAt h 5 0 s = ([], Some (ErrorString "read not supported"))
    /\ (file_Write h (list_byte_of_string "x") s).1.1
         = (0, Some (ErrorString "write not supported")).
Proof.
  eexists _, _. split; [vm_compute; reflexivity|].
  split; [vm_compute; reflexivity|]. split; [vm_compute; reflexivity|].
  split; vm_compute; reflexivity.
Qed.

(** ** The invariants of the statements *)

Lemma New_rooted : rooted New.
Proof. reflexivity. Qed.

Lemma Chroot_rooted (fs fs' : Memory) (p : string) :
  rooted fs -> Memory_Chroot fs p = Ok fs' -> rooted fs'.
Proof.
  unfold Memory_Chroot, rooted. intros Hfs.
  destruct (Memory_validate fs _); [discriminate|]. intros [= <-]. simpl.
  now apply HasPrefix_Join.
Qed.

Lemma owned_newStorage : owned newStorage.
Proof.
  split; [apply map_Forall_empty|]. simpl. rewrite map_to_list_empty.
  constructor.
Qed.

Lemma owned_setBytes (c : loc) (b : list Byte.byte) (s : storage) :
  owned s -> owned (setBytes c b s).
Proof. intros Ho. exact Ho. Qed.

Lemma owned_insertNode (q : string) (m fl : Z) (s : storage) :
  owned s -> files s !! q = None -> owned (insertNode q m fl s).2.
Proof.
  intros [Hb Hnd] Hq. unfold insertNode. split; simpl.
  - apply map_Forall_insert_2; [simpl; lia|].
    intros k g Hg. specialize (Hb k g Hg). simpl in Hb. lia.
  - rewrite map_to_list_insert by assumption. rewrite fmap_cons.
    apply NoDup_cons. split; [|exact Hnd].
    intros Hin. apply list_elem_of_fmap in Hin as [[k g] [Hc Hin]].
    apply elem_of_map_to_list in Hin.
    specialize (Hb k g Hin). simpl in Hb, Hc. lia.
Qed.

Lemma owned_ensureDirs (m : Z) (l : list string) :
  forall s, owned s -> owned (fold_left (ensureDir m) l s).
Proof.
  induction l as [|q l IH]; intros s Ho; simpl; [exact Ho|].
  apply IH. unfold ensureDir. destruct (files s !! q) eqn:Hq; [exact Ho|].
  now apply owned_insertNode.
Qed.

Lemma owned_storage_New (q : string) (m fl : Z) (s : storage) :
  owned s -> owned (storage_New q m fl s).2.
Proof.
  intros Ho. unfold storage_New. destruct (files s !! q) as [f|] eqn:Hq.
  - destruct (IsDir m); [now destruct (IsDir (mode f))|].
    destruct (negb (isCreate fl)); [exact Ho|].
    destruct (isExclusive fl); [exact Ho|]. now destruct (isAppend fl).
  - destruct (IsDir m || isCreate fl); [|exact Ho].
    pose proof (owned_insertNode q m fl s Ho Hq) as Hi.
    destruct (insertNode q m fl s) as [f s1]. simpl.
    now apply owned_ensureDirs.
Qed.

Lemma owned_OpenFile_end (fs : Memory) (p q : string) (f : file)
    (fl perm : Z) (s : storage) :
  owned s -> owned (OpenFile_end fs p q f fl perm s).2.
Proof.
  intros Ho. unfold OpenFile_end. destruct (IsDir (mode f)); [exact Ho|].
  destruct (Rel (base fs) q); [|exact Ho].
  pose proof (Duplicate_storage f s0 perm fl s) as Hd.
  destruct (file_Duplicate f s0 perm fl s) as [h s']. simpl in Hd |- *.
  rewrite Hd. now destruct (isTruncate fl).
Qed.

(** The operations that open files keep the nodes the owners of their
    buffers: [OpenFile], and with it [Create], [Open], [TempFile] and
    [Symlink]; so do [MkdirAll], [Remove] and the writes through a
    handle. *)
Lemma owned_OpenFile (fuel : nat) :
  forall (fs : Memory) (p : string) (fl perm : Z) (s s' : storage)
         (r : result file),
    owned s -> Memory_OpenFile fuel fs p fl perm s = Some (r, s') -> owned s'.
Proof.
  induction fuel as [|fuel IH]; intros fs p fl perm s s' r Ho; simpl;
    [discriminate|].
  destruct (Memory_getFromStorage fs (Memory_fullpath fs p) s) as [f|e].
  - destruct (Memory_resolveLink fs (Memory_fullpath fs p) f s) as [t [|]].
    + now apply IH.
    + intros [= H]. pose proof (owned_OpenFile_end fs p (Memory_fullpath fs p)
                                 f fl perm s Ho) as Hend.
      rewrite H in Hend. exact Hend.
  - destruct (IsNotExist e); [|now intros [= _ <-]].
    destruct (negb (isCreate fl)); [now intros [= _ <-]|].
    pose proof (owned_storage_New (Memory_fullpath fs p) perm fl s Ho) as Hn.
    destruct (storage_New (Memory_fullpath fs p) perm fl s) as [[f|e'] s1];
      simpl in Hn.
    + intros [= H]. pose proof (owned_OpenFile_end fs p (Memory_fullpath fs p)
                                 f fl perm s1 Hn) as Hend.
      rewrite H in Hend. exact Hend.
    + now intros [= _ <-].
Qed.

Lemma owned_MkdirAll (fs : Memory) (p : string) (perm : Z) (s : storage) :
  owned s -> owned (Memory_MkdirAll fs p perm s).2.
Proof.
  intros Ho. unfold Memory_MkdirAll.
  pose proof (owned_storage_New (Memory_Join [base fs; p])
                (Z.lor perm ModeDir) 0 s Ho) as Hn.
  now destruct (storage_New _ _ 0 s) as [[f|e] s'].
Qed.

Lemma owned_Remove (q : string) (s : storage) :
  owned s -> owned (storage_Remove q s).2.
Proof.
  intros Ho. unfold storage_Remove.
  destruct (files s !! q) as [f|] eqn:Hq; [|exact Ho].
  destruct (_ && _); [exact Ho|]. destruct Ho as [Hb Hnd]. split; simpl.
  - now apply map_Forall_delete.
  - rewrite <- (map_to_list_delete (files s) q f Hq), fmap_cons in Hnd.
    now apply NoDup_cons in Hnd as [_ Hnd].
Qed.

Lemma owned_Write (h : file) (p : list Byte.byte) (s : storage) :
  owned s -> owned (file_Write h p s).2.
Proof.
  intros Ho. unfold file_Write, content_WriteAt.
  destruct (isClosed h); [exact Ho|]. destruct (_ && _); [exact Ho|].
  now destruct (position h <? 0).
Qed.

(** ** Creation and the round trip *)

Lemma extends_refl (s : storage) : extends s s.
Proof. repeat split; auto. Qed.

Lemma extends_trans (s1 s2 s3 : storage) :
  extends s1 s2 -> extends s2 s3 -> extends s1 s3.
Proof.
  intros (Hf1 & Hb1 & Hn1) (Hf2 & Hb2 & Hn2). repeat split.
  - auto.
  - intros l Hl. rewrite Hb2 by lia. now apply Hb1.
  - lia.
Qed.

Lemma insertNode_extends (q : string) (m fl : Z) (s : storage) :
  files s !! q = None -> extends s (insertNode q m fl s).2.
Proof.
  intros Hq. unfold insertNode. simpl. repeat split; simpl.
  - intros k g Hk. rewrite lookup_insert_ne; [assumption|]. congruence.
  - intros l Hl. unfold bytes. simpl. rewrite lookup_insert_ne; [reflexivity|lia].
  - lia.
Qed.

Lemma ensureDir_extends (m : Z) (s : storage) (q : string) :
  extends s (ensureDir m s q).
Proof.
  unfold ensureDir. destruct (files s !! q) eqn:Hq; [apply extends_refl|].
  now apply insertNode_extends.
Qed.

Lemma ensureDirs_extends (m : Z) (l : list string) :
  forall s, extends s (fold_left (ensureDir m) l s).
Proof.
  induction l as [|q l IH]; intros s; simpl; [apply extends_refl|].
  eapply extends_trans; [apply ensureDir_extends|apply IH].
Qed.

(** [storage.New] at a path that holds no node: the node made, with a new
    empty buffer, over a storage that extends the old one. *)
Lemma storage_New_free (q : string) (perm fl : Z) (s : storage) (f : file)
    (s0 : storage) :
  files s !! q = None -> storage_New q perm fl s = (Ok f, s0) ->
  f = mkFile (Base q) (next s) 0 fl perm false
  /\ files s0 !! q = Some f
  /\ bytes s0 (next s) = []
  /\ extends s s0.
Proof.
  intros Hq. unfold storage_New. rewrite Hq.
  destruct (IsDir perm || isCreate fl); [|discriminate].
  destruct (insertNode q perm fl s) as [f' s1] eqn:Hi. intros [= <- <-].
  pose proof (insertNode_extends q perm fl s Hq) as He1. rewrite Hi in He1.
  pose proof (ensureDirs_extends perm (ancestors q) s1) as (Hf2 & Hb2 & Hn2).
  unfold insertNode in Hi. injection Hi as <- <-.
  split; [reflexivity|]. split; [|split].
  - apply Hf2. simpl. apply lookup_insert_eq.
  - rewrite Hb2 by (simpl; lia). unfold bytes. simpl.
    now rewrite lookup_insert_eq.
  - eapply extends_trans; [exact He1|]. repeat split; assumption.
Qed.

Lemma owned_bound (s : storage) (k : string) (g : file) :
  owned s -> files s !! k = Some g -> (content g < next s)%nat.
Proof. intros [Hb _] Hk. exact (Hb k g Hk). Qed.

Lemma owned_inj (s : storage) (k1 k2 : string) (g1 g2 : file) :
  owned s -> files s !! k1 = Some g1 -> files s !! k2 = Some g2 ->
  content g1 = content g2 -> k1 = k2.
Proof.
  intros [_ Hnd] H1 H2 Hc.
  apply elem_of_map_to_list in H1, H2.
  apply list_elem_of_lookup in H1 as [i Hi], H2 as [j Hj].
  assert (i = j) as ->.
  { eapply NoDup_lookup; [exact Hnd| |].
    - rewrite list_lookup_fmap, Hi. reflexivity.
    - rewrite list_lookup_fmap, Hj. simpl. now rewrite Hc. }
  congruence.
Qed.

(** A chain stays what it is in a storage that keeps the symlinks, as long
    as no symlink comes to its end. *)
Lemma chainEnd_keeps (n : nat) :
  forall (fs : Memory) (p : string) (s s' : storage) (q : string),
    chainEnd n fs p s = Some q -> keepsLinks s s' ->
    (forall g, files s' !! q = Some g -> isSymlink (mode g) = false) ->
    chainEnd n fs p s' = Some q.
Proof.
  induction n as [|n IH]; intros fs p s s' q Hq Hk Hend.
  - destruct (chainEnd_end 0 fs p s q Hq) as (Hv & _ & _).
    simpl in Hq |- *.
    assert (q = Memory_fullpath fs p) as ->.
    { destruct (Memory_getFromStorage fs (Memory_fullpath fs p) s) as [f|e].
      - destruct (isSymlink (mode f)); congruence.
      - destruct (IsNotExist e); congruence. }
    unfold Memory_getFromStorage, storage_Get. rewrite Hv.
    destruct (files s' !! Memory_fullpath fs p) as [g|] eqn:Hg; [|reflexivity].
    now rewrite (Hend g).
  - simpl in Hq |- *.
    destruct (Memory_getFromStorage fs (Memory_fullpath fs p) s) as [f|e] eqn:Hg;
      [|discriminate].
    destruct (Memory_resolveLink fs (Memory_fullpath fs p) f s) as [t [|]] eqn:Hr;
      [|discriminate].
    pose proof (resolveLink_link _ _ _ _ _ Hr) as Hl.
    apply getFromStorage_Ok in Hg as [Hv Hf].
    destruct (Hk _ _ Hf Hl) as [Hf' Hb'].
    assert (Hg' : Memory_getFromStorage fs (Memory_fullpath fs p) s' = Ok f).
    { apply getFromStorage_Ok. now split. }
    rewrite Hg'.
    assert (Hr' : Memory_resolveLink fs (Memory_fullpath fs p) f s' = (t, true)).
    { unfold Memory_resolveLink in Hr |- *. now rewrite Hb'. }
    rewrite Hr'. now apply (IH fs t s s' q).
Qed.

Lemma keepsLinks_setBytes (s s' : storage) (c : loc) (b : list Byte.byte) :
  keepsLinks s s' ->
  (forall k g, files s !! k = Some g -> isSymlink (mode g) = true ->
     content g <> c) ->
  keepsLinks s (setBytes c b s').
Proof.
  intros Hk Hc k g Hg Hl. destruct (Hk k g Hg Hl) as [Hf Hb].
  split; [exact Hf|]. rewrite bytes_setBytes.
  destruct (decide (c = content g)) as [->|]; [|assumption].
  now destruct (Hc k g Hg Hl).
Qed.

Lemma extends_keepsLinks (s s' : storage) :
  owned s -> extends s s' -> keepsLinks s s'.
Proof.
  intros Ho (Hf & Hb & _) k g Hg _. split; [now apply Hf|].
  apply Hb. now apply (owned_bound s k).
Qed.

(** Reading to the end a readable handle at [pos] returns the bytes of the
    buffer from [pos] on. *)
Lemma readAll_from (chunk : nat) (s : storage) (B : list Byte.byte) :
  (0 < chunk)%nat -> Z.of_nat (length B) < 2 ^ 63 ->
  forall (fuel : nat) (r : file) (pos : nat),
    isClosed r = false -> flag r = O_RDONLY -> bytes s (content r) = B ->
    position r = Z.of_nat pos -> (pos <= length B)%nat ->
    (length B - pos < fuel)%nat ->
    readAll fuel chunk r s = Some (drop pos B, None).
Proof.
  intros Hchunk HB. induction fuel as [|fuel IH];
    intros r pos Hcl Hfl Hb Hp Hpos Hfuel; [lia|].
  cbn [readAll]. unfold file_Read, file_ReadAt, content_ReadAt, content_Len.
  rewrite Hcl, Hfl, Hb, Hp. simpl negb. cbn [andb].
  destruct (Z.of_nat pos <? 0) eqn:Hneg; [lia|].
  destruct (Z.of_nat (length B) <=? Z.of_nat pos) eqn:Hend.
  - simpl. f_equal. f_equal. rewrite drop_ge; [reflexivity|lia].
  - rewrite Nat2Z.id.
    set (data := take chunk (drop pos B)).
    assert (Hlen : length data = Nat.min chunk (length B - pos)).
    { unfold data. now rewrite length_take, length_drop. }
    assert (Hn : (Z.of_nat (length data) =? 0) = false) by lia.
    assert (Herr : match (if (length data <? chunk)%nat then Some EOF else None)
                   with
                   | Some EOF =>
                       if negb (Z.of_nat (length data) =? 0) then None
                       else (if (length data <? chunk)%nat then Some EOF else None)
                   | _ => (if (length data <? chunk)%nat then Some EOF else None)
                   end = None).
    { rewrite Hn. now destruct (length data <? chunk)%nat. }
    rewrite Herr.
    rewrite (IH _ (pos + length data)%nat); simpl; try assumption; try lia.
    + f_equal. f_equal.
      rewrite <- (take_drop chunk (drop pos B)). fold data.
      f_equal. rewrite drop_drop.
      destruct (Nat.min_spec chunk (length B - pos)) as [[? Hm]|[? Hm]];
        rewrite Hm in Hlen.
      * now rewrite Hlen.
      * rewrite !drop_ge; [reflexivity|lia..].
    + rewrite wrap64_small; lia.
Qed.

Lemma keepsLinks_refl (s : storage) : keepsLinks s s.
Proof. intros k g Hg _. now split. Qed.

(** Writing through the handle of [Create] on the node at the end of the
    chain from [p], then opening [p] and reading to the end. *)
Lemma write_open_read (n fuel : nat) (fs : Memory) (p : string)
    (s s0 : storage) (q : string) (f : file) (B : list Byte.byte) :
  rooted fs -> chainEnd n fs p s = Some q -> keepsLinks s s0 ->
  files s0 !! q = Some f -> isSymlink (mode f) = false ->
  IsDir (mode f) = false ->
  (forall k g, files s !! k = Some g -> isSymlink (mode g) = true ->
     content g <> content f) ->
  (n < fuel)%nat -> Z.of_nat (length B) < 2 ^ 63 ->
  exists h' s2,
    file_Write (opened fs q f createFlags createPerm s0).1 B
               (opened fs q f createFlags createPerm s0).2
      = ((Z.of_nat (length B), None), h', s2)
    /\ exists r, Memory_Open fuel fs p s2 = Some (Ok r, s2)
    /\ forall chunk, (0 < chunk)%nat ->
         readAll (S (length B)) chunk r s2 = Some (B, None).
Proof.
  intros Hfs Hq Hk Hf Hl Hdir Hne Hfuel HB.
  set (c := content f).
  set (s1 := content_Truncate c s0).
  set (s2 := setBytes c B s1).
  set (nm := default "" (Rel (base fs) q)).
  assert (Hop : opened fs q f createFlags createPerm s0
                = (mkFile nm c 0 createFlags createPerm false, s1)) by reflexivity.
  assert (Hw : file_Write (mkFile nm c 0 createFlags createPerm false) B s1
               = ((Z.of_nat (length B), None),
                  setPosition (wrap64 (0 + Z.of_nat (length B)))
                    (mkFile nm c 0 createFlags createPerm false), s2)).
  { unfold file_Write, content_WriteAt. cbn [isClosed flag content position].
    change (isReadAndWrite createFlags) with true. cbn [negb andb].
    change (0 <? 0) with false. cbn iota. change (Z.to_nat 0) with 0%nat.
    assert (Hb1 : bytes s1 c = []) by apply bytes_setBytes_eq.
    rewrite Hb1. cbn [length Nat.sub replicate app take].
    rewrite drop_nil, app_nil_r. reflexivity. }
  rewrite Hop. cbn [fst snd].
  rewrite Hw. eexists _, _. split; [reflexivity|].
  assert (Hk2 : keepsLinks s s2).
  { apply keepsLinks_setBytes; [|exact Hne].
    apply keepsLinks_setBytes; [exact Hk|exact Hne]. }
  assert (Hf2 : files s2 !! q = Some f) by exact Hf.
  assert (Hq2 : chainEnd n fs p s2 = Some q).
  { apply (chainEnd_keeps n fs p s s2 q Hq Hk2). intros g Hg. congruence. }
  unfold Memory_Open.
  rewrite (OpenFile_chain_node n fuel fs p s2 q f O_RDONLY 0 Hfs Hq2 Hf2 Hfuel Hdir).
  eexists. split; [reflexivity|].
  intros chunk Hchunk.
  rewrite (readAll_from chunk s2 B Hchunk HB (S (length B)) _ 0);
    try reflexivity; try lia.
  unfold opened, file_Duplicate. simpl. apply bytes_setBytes_eq.
Qed.

(** C7.  Let [p] lead, by any number of symlinks within the boundary, to a
    path that holds a file or no node, but not a directory.  Then
    [Create p] returns a handle; writing the bytes [B] through it writes
    them all; and [Open p], after that, returns a handle from which reading
    to the end, by reads of any size, yields exactly [B]. *)
Theorem Create_Write_Open_Read (n fuel : nat) (fs : Memory) (p : string)
    (s : storage) (q : string) (B : list Byte.byte) :
  rooted fs -> owned s -> chainEnd n fs p s = Some q ->
  isDirAt q s = false -> (n < fuel)%nat -> Z.of_nat (length B) < 2 ^ 63 ->
  exists h s1,
    Memory_Create fuel fs p s = Some (Ok h, s1)
    /\ exists h' s2,
         file_Write h B s1 = ((Z.of_nat (length B), None), h', s2)
    /\ exists r,
         Memory_Open fuel fs p s2 = Some (Ok r, s2)
    /\ forall chunk, (0 < chunk)%nat ->
         readAll (S (length B)) chunk r s2 = Some (B, None).
Proof.
  intros Hfs Ho Hq Hdir Hfuel HB.
  destruct (chainEnd_end n fs p s q Hq) as (_ & Hend & _).
  unfold Memory_Create. unfold isDirAt in Hdir.
  destruct (files s !! q) as [f|] eqn:Hf.
  - rewrite (OpenFile_chain_node n fuel fs p s q f createFlags createPerm)
      by assumption.
    eexists _, _. split; [reflexivity|].
    apply (write_open_read n fuel fs p s s q f B); auto using keepsLinks_refl.
    intros k g Hg Hl Hc.
    assert (k = q) as -> by exact (owned_inj s k q g f Ho Hg Hf Hc).
    rewrite Hf in Hg. injection Hg as <-. rewrite (Hend f) in Hl; [discriminate|reflexivity].
  - destruct (OpenFile_chain_free n fuel fs p s q createFlags createPerm)
      as (f & s0 & Hnew & Hopen); try assumption; try reflexivity.
    rewrite Hopen.
    destruct (storage_New_free q createPerm createFlags s f s0 Hf Hnew)
      as (-> & Hf0 & _ & Hext).
    eexists _, _. split; [reflexivity|].
    apply (write_open_read n fuel fs p s s0 q _ B); auto.
    + now apply extends_keepsLinks.
    + intros k g Hg _ Hc. simpl in Hc.
      pose proof (owned_bound s k g Ho Hg). lia.
Qed.

(** ** Symlink creation *)

(** [Stat] fails with not-found or with the boundary error only. *)
Lemma Stat_Err (fuel : nat) :
  forall (fs : Memory) (p : string) (s : storage) (e : error),
    Memory_Stat fuel fs p s = Some (Err e) ->
    e = ErrNotExist \/ e = ErrCrossedBoundary.
Proof.
  induction fuel as [|fuel IH]; intros fs p s e; simpl; [discriminate|].
  destruct (Memory_getFromStorage fs (Memory_fullpath fs p) s) as [f|e0] eqn:Hg.
  - destruct (Memory_resolveLink fs (Memory_fullpath fs p) f s) as [t [|]];
      [|discriminate].
    destruct (Memory_Stat fuel fs t s) as [[fi|e1]|] eqn:Hs; try discriminate.
    intros [= <-]. exact (IH fs t s e1 Hs).
  - intros [= <-]. exact (getFromStorage_Err fs _ s e0 Hg).
Qed.

(** [Stat] of a chain that ends at a path without a node is not-found. *)
Lemma Stat_followToFree (n : nat) :
  forall (fuel : nat) (fs : Memory) (p : string) (s : storage) (q : string),
    followToFree n fs p s = Some q -> (n < fuel)%nat ->
    Memory_Stat fuel fs p s = Some (Err ErrNotExist).
Proof.
  unfold followToFree, storage_Get.
  induction n as [|n IH]; intros fuel fs p s q Hq Hfuel;
    (destruct fuel as [|fuel]; [lia|]); simpl in Hq |- *;
    destruct (Memory_getFromStorage fs (Memory_fullpath fs p) s) as [f|e] eqn:Hg;
    try discriminate.
  - destruct (isSymlink (mode f)); [discriminate|].
    apply getFromStorage_Ok in Hg as [_ Hf]. rewrite Hf in Hq. discriminate.
  - destruct e; try discriminate. reflexivity.
  - destruct (Memory_resolveLink fs (Memory_fullpath fs p) f s) as [t [|]];
      [|discriminate].
    now rewrite (IH fuel fs t s q Hq) by lia.
Qed.

Lemma OpenFile_end_not_ErrExist (fs : Memory) (p q : string) (f : file)
    (fl perm : Z) (s s' : storage) (e : error) :
  OpenFile_end fs p q f fl perm s = (Err e, s') -> e <> ErrExist.
Proof.
  unfold OpenFile_end. destruct (IsDir (mode f)); [intros [= <- _]; discriminate|].
  destruct (Rel (base fs) q).
  - destruct (file_Duplicate f _ perm fl s). discriminate.
  - intros [= <- _]. discriminate.
Qed.

(** [OpenFile] does not fail with already-exists. *)
Lemma OpenFile_not_ErrExist (fuel : nat) :
  forall (fs : Memory) (p : string) (fl perm : Z) (s s' : storage) (e : error),
    Memory_OpenFile fuel fs p fl perm s = Some (Err e, s') -> e <> ErrExist.
Proof.
  induction fuel as [|fuel IH]; intros fs p fl perm s s' e; simpl;
    [discriminate|].
  destruct (Memory_getFromStorage fs (Memory_fullpath fs p) s) as [f|e0] eqn:Hg.
  - destruct (Memory_resolveLink fs (Memory_fullpath fs p) f s) as [t [|]].
    + apply IH.
    + intros [= H]. exact (OpenFile_end_not_ErrExist _ _ _ _ _ _ _ _ _ H).
  - destruct (IsNotExist e0) eqn:He0.
    + destruct (isCreate fl) eqn:Hc; simpl; [|intros [= <- _]; discriminate].
      destruct (getFromStorage_NotExist _ _ _ _ Hg He0) as [_ Hnone].
      unfold storage_New. rewrite Hnone, Hc, orb_true_r.
      destruct (insertNode _ perm fl s) as [f s1].
      intros [= H]. exact (OpenFile_end_not_ErrExist _ _ _ _ _ _ _ _ _ H).
    + intros [= <- _]. destruct (getFromStorage_Err _ _ _ _ Hg) as [->| ->];
        discriminate.
Qed.

(** [billy.WriteFile] does not fail with already-exists. *)
Lemma WriteFile_not_ErrExist (fuel : nat) (fs : Memory) (p : string)
    (data : list Byte.byte) (perm : Z) (s s' : storage) (e : error) :
  WriteFile fuel fs p data perm s = Some (Some e, s') -> e <> ErrExist.
Proof.
  unfold WriteFile.
  destruct (Memory_OpenFile fuel fs p _ perm s) as [[[f|e0] s0]|] eqn:Ho;
    [|intros [= <- _]; exact (OpenFile_not_ErrExist _ _ _ _ _ _ _ _ Ho)
     |discriminate].
  unfold file_Write, content_WriteAt, file_Close.
  destruct (isClosed f) eqn:Hc.
  - simpl. rewrite Hc. intros [= <-]. discriminate.
  - destruct (_ && _).
    + simpl. rewrite Hc. intros [= <-]. discriminate.
    + destruct (position f <? 0); simpl.
      * rewrite ?Hc. intros [= <-]. discriminate.
      * rewrite ?Hc. destruct (_ <? _); [intros [= <-]; discriminate|]. discriminate.
Qed.

Lemma chainEnd_fullpath (n : nat) (fs : Memory) (p p' : string) (s : storage) :
  Memory_fullpath fs p = Memory_fullpath fs p' ->
  chainEnd n fs p s = chainEnd n fs p' s.
Proof. intros H. destruct n; simpl; now rewrite H. Qed.

(** C10.  [Symlink] fails with already-exists exactly when [Stat] of the
    link path succeeds.  [Stat] follows symlinks, so that it fails with
    not-found on a link path that holds a dangling symlink; there, with a
    target within the boundary, [Symlink] goes on to write through the
    dangling link: it succeeds, the node it makes is at the free path [q]
    that the chain from the link path ends at and holds the cleaned target,
    and the node at the link path is as it was.  [Symlink] tests the link
    path as given and writes its cleaned form: the two are to name one
    path under the base, as they do for every path that is not rooted
    ([fullpath_clean]). *)
Theorem Symlink_AlreadyExists_iff_Stat (fuel : nat) (fs : Memory)
    (target link : string) (s : storage) :
  ((exists s', Memory_Symlink fuel fs target link s = Some (Some ErrExist, s'))
   <-> (exists fi, Memory_Stat fuel fs link s = Some (Ok fi)))
  /\ forall (n : nat) (q : string),
       rooted fs -> followToFree (S n) fs link s = Some q ->
       (S n < fuel)%nat ->
       Memory_fullpath fs (clean link) = Memory_fullpath fs link ->
       Memory_isTargetOutBounders fs link target = false ->
       exists (g : file) (s' : storage),
         Memory_Symlink fuel fs target link s = Some (None, s')
         /\ files s' !! q = Some g
         /\ isSymlink (mode g) = true
         /\ bytes s' (content g) = list_byte_of_string (clean target)
         /\ files s' !! Memory_fullpath fs link
              = files s !! Memory_fullpath fs link
         /\ is_Some (files s !! Memory_fullpath fs link).
Proof.
  split; [split|].
  - intros [s' Hs]. unfold Memory_Symlink in Hs.
    destruct (Memory_Stat fuel fs link s) as [[fi|e]|] eqn:Hst;
      [eauto| |discriminate].
    exfalso. destruct (Stat_Err _ _ _ _ _ Hst) as [-> | ->]; simpl in Hs.
    + destruct (Memory_isTargetOutBounders fs link target); [discriminate|].
      now apply WriteFile_not_ErrExist in Hs.
    + discriminate.
  - intros [fi Hst]. unfold Memory_Symlink. rewrite Hst. eauto.
  - intros n q Hfs Hfree Hfuel Hclean Hin.
    unfold Memory_Symlink.
    rewrite (Stat_followToFree (S n) fuel fs link s q Hfree Hfuel).
    simpl negb. cbn iota. rewrite Hin.
    unfold followToFree, storage_Get in Hfree.
    destruct (chainEnd (S n) fs link s) as [q'|] eqn:Hq; [|discriminate].
    destruct (files s !! q') eqn:Hnone; [discriminate|].
    injection Hfree as ->.
    rewrite <- (chainEnd_fullpath (S n) fs (clean link) link s Hclean) in Hq.
    destruct (OpenFile_chain_free (S n) fuel fs (clean link) s q writeFlags
                linkMode Hfs Hq Hnone Hfuel eq_refl eq_refl)
      as (f & s0 & Hnew & Hopen).
    destruct (storage_New_free q linkMode writeFlags s f s0 Hnone Hnew)
      as (-> & Hf0 & Hb0 & (Hext & _ & _)).
    unfold WriteFile. fold writeFlags. fold linkMode. rewrite Hopen.
    set (data := list_byte_of_string (clean target)).
    set (nm := default "" (Rel (base fs) q)).
    set (c := next s).
    set (s1 := content_Truncate c s0).
    assert (Hop : opened fs q (mkFile (Base q) c 0 writeFlags linkMode false)
                    writeFlags linkMode s0
                  = (mkFile nm c 0 writeFlags linkMode false, s1))
      by reflexivity.
    rewrite Hop. cbn [fst snd].
    assert (Hw : file_Write (mkFile nm c 0 writeFlags linkMode false) data s1
               = ((Z.of_nat (length data), None),
                  setPosition (wrap64 (0 + Z.of_nat (length data)))
                    (mkFile nm c 0 writeFlags linkMode false),
                  setBytes c data s1)).
    { unfold file_Write, content_WriteAt. cbn [isClosed flag content position].
      change (isReadAndWrite writeFlags) with false.
      change (isWriteOnly writeFlags) with true. cbn [negb andb].
      change (0 <? 0) with false. cbn iota. change (Z.to_nat 0) with 0%nat.
      assert (Hb1 : bytes s1 c = []) by apply bytes_setBytes_eq.
      rewrite Hb1. cbn [length Nat.sub replicate app take].
      rewrite drop_nil, app_nil_r. reflexivity. }
    rewrite Hw. rewrite Z.ltb_irrefl. cbn.
    eexists _, _. split; [reflexivity|].
    split; [exact Hf0|]. split; [reflexivity|].
    split; [apply bytes_setBytes_eq|].
    simpl in Hq.
    destruct (Memory_getFromStorage fs (Memory_fullpath fs (clean link)) s)
      as [l|] eqn:Hl; [|discriminate].
    apply getFromStorage_Ok in Hl as [_ Hl]. rewrite Hclean in Hl.
    rewrite Hl. split; [now apply Hext|eauto].
Qed.

(** C8, as the code has it.  For a target that escapes the root, [Symlink]
    makes no node and leaves the storage as it is: when [Stat] of the link
    path fails, it fails with the boundary error; when [Stat] succeeds, the
    link path exists already, and it fails with already-exists before it
    looks at the target. *)
Theorem Symlink_escaping_target (fuel : nat) (fs : Memory)
    (target link : string) (s : storage) (r : result fileInfo) :
  Memory_isTargetOutBounders fs link target = true ->
  Memory_Stat fuel fs link s = Some r ->
  Memory_Symlink fuel fs target link s =
    Some (Some (match r with
                | Ok _ => ErrExist
                | Err _ => ErrCrossedBoundary
                end), s).
Proof.
  intros Hout Hst. unfold Memory_Symlink. rewrite Hst.
  destruct r as [fi|e]; [reflexivity|].
  destruct (Stat_Err _ _ _ _ _ Hst) as [-> | ->]; simpl; [|reflexivity].
  now rewrite Hout.
Qed.

(** The claim C8 as stated fails where the link path exists: the target
    escapes the root of [exChroot], [Symlink] fails with already-exists and
    not with the boundary error, and [Open] of the link path succeeds. *)
Lemma Symlink_escaping_target_existing_link :
  Memory_isTargetOutBounders exChroot "link" "../../secret" = true
  /\ Memory_Symlink 2 exChroot "../../secret" "link" exStorageA
       = Some (Some ErrExist, exStorageA)
  /\ exists h, Memory_Open 2 exChroot "link" exStorageA
                 = Some (Ok h, exStorageA).
Proof.
  split; [vm_compute; reflexivity|]. split; [vm_compute; reflexivity|].
  eexists. vm_compute. reflexivity.
Qed.

(** ** Temp files *)

Section tempfiles.

Variable clock : Z -> Z.
Variables dir prefix : string.
Variable s : storage.

Lemma getTempFilename_eq (fs : Memory) :
  Memory_getTempFilename (clock (tempCount fs + 1)) fs dir prefix =
    (tempName clock (base fs) dir prefix (tempCount fs + 1),
     mkMemory (base fs) (tempCount fs + 1)).
Proof. reflexivity. Qed.

(** The loop of [TempFile] ends within as many turns as the counter is
    below the ceiling.  It tries the candidates of the counters above the
    one it starts from, in turn; all those before the last are in the
    storage; it returns the first that is not, or the error when the
    counter is at the ceiling. *)
Lemma tempLoop_spec (k : nat) :
  forall fs : Memory,
    (Z.to_nat (maxTempFiles - tempCount fs) < k)%nat ->
    exists (r : result string) (fs' : Memory),
      tempLoop k clock fs dir prefix s = Some (r, fs')
      /\ base fs' = base fs
      /\ tempCount fs <= tempCount fs'
      /\ (forall c, tempCount fs < c < tempCount fs' ->
            is_Some (files s !! tempName clock (base fs) dir prefix c))
      /\ match r with
         | Ok cand =>
             tempCount fs < tempCount fs' <= maxTempFiles
             /\ cand = tempName clock (base fs) dir prefix (tempCount fs')
             /\ files s !! cand = None
         | Err e =>
             e = errTempFiles
             /\ maxTempFiles <= tempCount fs'
             /\ (tempCount fs < tempCount fs' ->
                   tempCount fs' = maxTempFiles
                   /\ is_Some (files s !! tempName clock (base fs) dir prefix
                                             (tempCount fs')))
         end.
Proof.
  induction k as [|k IH]; intros fs Hk; [lia|].
  cbn [tempLoop].
  destruct (maxTempFiles <=? tempCount fs) eqn:Hmax.
  - exists (Err errTempFiles), fs.
    split; [reflexivity|]. split; [reflexivity|]. split; [lia|].
    split; [intros c Hc; lia|]. split; [reflexivity|]. split; [lia|].
    intros; lia.
  - rewrite getTempFilename_eq.
    set (cand := tempName clock (base fs) dir prefix (tempCount fs + 1)).
    set (fs1 := mkMemory (base fs) (tempCount fs + 1)).
    destruct (files s !! cand) as [g|] eqn:Hcand.
    + destruct (IH fs1) as (r & fs' & Hloop & Hb & Hle & Hrange & Hr).
      { simpl. lia. }
      simpl in Hb, Hle, Hrange, Hr.
      exists r, fs'. split; [exact Hloop|]. split; [exact Hb|].
      split; [lia|]. split.
      * intros c Hc. destruct (decide (c = tempCount fs + 1)) as [->|Hne].
        -- fold cand. rewrite Hcand. eauto.
        -- apply Hrange. lia.
      * destruct r as [cand'|e].
        -- destruct Hr as (? & ? & ?). repeat split; try assumption; lia.
        -- destruct Hr as (He & Hge & Hlast). split; [exact He|].
           split; [exact Hge|]. intros _.
           destruct (decide (tempCount fs + 1 < tempCount fs')) as [Hlt|Hnlt].
           ++ now apply Hlast.
           ++ assert (Heq : tempCount fs' = tempCount fs + 1) by lia.
              rewrite Heq. fold cand. rewrite Hcand. split; [lia|eauto].
    + exists (Ok cand), fs1. simpl.
      split; [reflexivity|]. split; [reflexivity|]. split; [lia|].
      split; [intros c Hc; lia|]. split; [lia|]. split; [reflexivity|].
      exact Hcand.
Qed.

(** At the ceiling [TempFile] fails at once, whatever the storage holds. *)
Lemma TempFile_at_ceiling (fuel : nat) (fs : Memory) :
  maxTempFiles <= tempCount fs ->
  Memory_TempFile fuel clock fs dir prefix s = Some (Err errTempFiles, fs, s).
Proof.
  intros Hmax. unfold Memory_TempFile. cbn [tempLoop].
  destruct (maxTempFiles <=? tempCount fs) eqn:H; [reflexivity|lia].
Qed.

(** C9, as the code has it.  [TempFile] makes its candidates from a counter
    of the filesystem that no call resets: the call tries the names of the
    counters above the one it finds, in turn, as long as they are in the
    storage, and creates the first that is not.  It fails with the error
    exactly when the counter comes to the ceiling of 4096 first, which
    bounds the turns of the call; at the ceiling it fails at once, without
    a candidate, so that the calls served before count. *)
Theorem TempFile_counter_ceiling (fuel : nat) (fs : Memory) :
  exists (r : result string) (fs' : Memory),
    Memory_TempFile fuel clock fs dir prefix s =
      match r with
      | Err e => Some (Err e, fs', s)
      | Ok cand =>
          match Memory_Create fuel fs' cand s with
          | None => None
          | Some (r', s') => Some (r', fs', s')
          end
      end
    /\ base fs' = base fs
    /\ tempCount fs <= tempCount fs'
    /\ (forall c, tempCount fs < c < tempCount fs' ->
          is_Some (files s !! tempName clock (base fs) dir prefix c))
    /\ match r with
       | Ok cand =>
           tempCount fs < tempCount fs' <= maxTempFiles
           /\ cand = tempName clock (base fs) dir prefix (tempCount fs')
           /\ files s !! cand = None
       | Err e =>
           e = errTempFiles
           /\ maxTempFiles <= tempCount fs'
           /\ (tempCount fs < tempCount fs' ->
                 tempCount fs' = maxTempFiles
                 /\ is_Some (files s !! tempName clock (base fs) dir prefix
                                           (tempCount fs')))
       end
    /\ (maxTempFiles <= tempCount fs -> r = Err errTempFiles /\ fs' = fs)
    /\ maxTempFiles = 4096.
Proof.
  destruct (tempLoop_spec (S (Z.to_nat (maxTempFiles - tempCount fs))) fs)
    as (r & fs' & Hloop & Hb & Hle & Hrange & Hr); [lia|].
  exists r, fs'. unfold Memory_TempFile. rewrite Hloop.
  split; [now destruct r|]. split; [exact Hb|]. split; [exact Hle|].
  split; [exact Hrange|]. split; [exact Hr|]. split; [|reflexivity].
  intros Hmax. cbn [tempLoop] in Hloop.
  destruct (maxTempFiles <=? tempCount fs) eqn:H; [|lia].
  now injection Hloop as <- <-.
Qed.

End tempfiles.

(** The claim C9 as stated fails for the calls served before: after 4096
    calls of [TempFile] on a new filesystem, all successful, the next call
    fails with the error, though the name of the next counter is not in the
    storage. *)
Lemma TempFile_fails_after_4096_calls :
  exists (fs : Memory) (s : storage),
    tempCalls 4096 New newStorage = Some (fs, s)
    /\ files s !! tempName exClock (base fs) "tmp" "f" (tempCount fs + 1) = None
    /\ Memory_TempFile 1 exClock fs "tmp" "f" s = Some (Err errTempFiles, fs, s).
Proof.
  assert (Hc : match tempCalls 4096 New newStorage with
               | Some (fs, s) =>
                   (maxTempFiles <=? tempCount fs)
                   && match files s !! tempName exClock (base fs) "tmp" "f"
                                          (tempCount fs + 1) with
                      | None => true
                      | Some _ => false
                      end
               | None => false
               end = true) by (vm_compute; reflexivity).
  destruct (tempCalls 4096 New newStorage) as [[fs s]|]; [|discriminate].
  apply andb_prop in Hc as [Hmax Hfree]. exists fs, s.
  split; [reflexivity|]. split.
  - now destruct (files s !! _).
  - apply TempFile_at_ceiling. lia.
Qed.

(** ** The boundary *)

(** The operations that validate the path fail with the boundary error on a
    path that [validate] refuses. *)
Lemma validate_Some (fs : Memory) (q : string) (e : error) :
  Memory_validate fs q = Some e -> e = ErrCrossedBoundary.
Proof.
  unfold Memory_validate. destruct (HasPrefix _ _); congruence.
Qed.

Lemma escaping_fullpath_refused (fs : Memory) (p : string) (s : storage)
    (e : error) :
  Memory_validate fs (Memory_fullpath fs p) = Some e ->
  (forall fuel fl perm,
     Memory_OpenFile (S fuel) fs p fl perm s = Some (Err ErrCrossedBoundary, s))
  /\ (forall fuel, Memory_Stat (S fuel) fs p s = Some (Err ErrCrossedBoundary))
  /\ Memory_Lstat fs p s = Err ErrCrossedBoundary
  /\ Memory_Readlink fs p s = Err ErrCrossedBoundary
  /\ (forall fuel target,
        Memory_Symlink (S fuel) fs target p s = Some (Some ErrCrossedBoundary, s)).
Proof.
  intros Hv. pose proof (validate_Some _ _ _ Hv) as ->.
  assert (Hg : Memory_getFromStorage fs (Memory_fullpath fs p) s
               = Err ErrCrossedBoundary).
  { unfold Memory_getFromStorage. now rewrite Hv. }
  repeat split; intros; unfold Memory_Lstat, Memory_Readlink, Memory_Symlink;
    simpl; now rewrite Hg.
Qed.

Lemma escaping_join_refused (fs : Memory) (p : string) (s : storage)
    (e : error) :
  Memory_validate fs (Memory_Join [base fs; p]) = Some e ->
  Memory_Remove fs p s = (Some ErrCrossedBoundary, s)
  /\ (forall to, Memory_Rename fs p to s = (Some ErrCrossedBoundary, s))
  /\ (forall from,
        Memory_validate fs (Memory_Join [base fs; from]) = None ->
        Memory_Rename fs from p s = (Some ErrCrossedBoundary, s))
  /\ Memory_Chroot fs p = Err ErrCrossedBoundary.
Proof.
  intros Hv. pose proof (validate_Some _ _ _ Hv) as ->.
  unfold Memory_Remove, Memory_Rename, Memory_Chroot. rewrite Hv.
  repeat split. intros from Hfrom. now rewrite Hfrom.
Qed.

Lemma IsDir_lor_ModeDir (perm : Z) : IsDir (Z.lor perm ModeDir) = true.
Proof.
  unfold IsDir.
  assert (H : Z.land (Z.lor perm ModeDir) ModeDir = ModeDir).
  { apply Z.bits_inj'. intros n _. rewrite Z.land_spec, Z.lor_spec.
    destruct (Z.testbit perm n), (Z.testbit ModeDir n); reflexivity. }
  rewrite H. reflexivity.
Qed.

(** [MkdirAll] makes the directory at every joined path that holds no node,
    within the boundary or not: [validate] has no part in it. *)
Lemma MkdirAll_unchecked (fs : Memory) (p : string) (perm : Z) (s : storage) :
  files s !! Memory_Join [base fs; p] = None ->
  exists s',
    Memory_MkdirAll fs p perm s = (None, s')
    /\ isDirAt (Memory_Join [base fs; p]) s' = true.
Proof.
  intros Hq. unfold Memory_MkdirAll.
  destruct (storage_New (Memory_Join [base fs; p]) (Z.lor perm ModeDir) 0 s)
    as [r s'] eqn:Hn.
  assert (Hr : exists f, r = Ok f).
  { unfold storage_New in Hn. rewrite Hq, IsDir_lor_ModeDir in Hn. simpl in Hn.
    injection Hn as <- _. eauto. }
  destruct Hr as [f ->].
  destruct (storage_New_free _ _ _ _ _ _ Hq Hn) as (-> & Hf & _).
  exists s'. split; [reflexivity|]. unfold isDirAt. rewrite Hf. simpl.
  apply IsDir_lor_ModeDir.
Qed.

(** [ReadDir] lists the children of a path that [validate] refuses. *)
Lemma ReadDir_drops_boundary_error (fs : Memory) (p : string) (s : storage)
    (e : error) (fuel : nat) :
  Memory_validate fs (Memory_fullpath fs p) = Some e ->
  Memory_ReadDir (S fuel) fs p s =
    Some (Ok (map (fun f => file_Stat f s)
                  (storage_Children (Memory_fullpath fs p) s))).
Proof.
  intros Hv. simpl. unfold Memory_getFromStorage. now rewrite Hv.
Qed.

(** C1, at a path the code can receive.  Under [exChroot], the filesystem
    that [Chroot "/a"] returns, the path [../x] is outside the root:
    [validate] refuses it.  [MkdirAll] does not call [validate]: it returns
    no error and makes the directory [/x].  [ReadDir] drops the error of
    [getFromStorage]: on [../dir] it lists the directory [/dir]. *)
Lemma MkdirAll_outside_root :
  Memory_Chroot New "/a" = Ok exChroot
  /\ Memory_validate exChroot (Memory_Join [base exChroot; "../x"])
       = Some ErrCrossedBoundary
  /\ (exists s', Memory_MkdirAll exChroot "../x" 493 newStorage = (None, s')
                 /\ isDirAt "/x" s' = true)
  /\ Memory_validate exChroot (Memory_fullpath exChroot "../dir")
       = Some ErrCrossedBoundary
  /\ Memory_ReadDir 1 exChroot "../dir" exStorage
       = Some (Ok [mkFileInfo "c" 5 438]).
Proof.
  split; [reflexivity|]. split; [vm_compute; reflexivity|].
  split.
  - eexists. split; [vm_compute; reflexivity|]. vm_compute. reflexivity.
  - split; vm_compute; reflexivity.
Qed.

(** ** The properties at the example storage *)

Lemma exStorage_owned : owned exStorage.
Proof. apply (bool_decide_unpack _). vm_compute. reflexivity. Qed.

Lemma Stat_symlink_chain_witness :
  followLinks 2 New "/a" exStorage = Some exFile /\ (2 < 3)%nat /\
  exists fi, Memory_Stat 3 New "/a" exStorage = Some (Ok fi)
    /\ fi_size fi = content_Len (content exFile) exStorage
    /\ fi_mode fi = mode exFile
    /\ fi_name fi = Base "/a".
Proof.
  assert (H : followLinks 2 New "/a" exStorage = Some exFile)
    by (vm_compute; reflexivity).
  split; [exact H|]. split; [lia|].
  apply (Stat_symlink_chain 2 3 New "/a" exStorage exFile H). lia.
Defined.

Lemma Lstat_reports_link_witness :
  Memory_getFromStorage New (Memory_fullpath New "/a") exDangling = Ok exLink /\
  isSymlink (mode exLink) = true /\
  exists fi target,
    Memory_Lstat New "/a" exDangling = Ok fi
    /\ Memory_Readlink New "/a" exDangling = Ok target
    /\ fi_mode fi = mode exLink
    /\ isSymlink (fi_mode fi) = true
    /\ fi_size fi = Z.of_nat (String.length target)
    /\ fi_name fi = name exLink.
Proof.
  assert (H : Memory_getFromStorage New (Memory_fullpath New "/a") exDangling
              = Ok exLink) by (vm_compute; reflexivity).
  split; [exact H|]. split; [reflexivity|].
  apply (Lstat_reports_link New "/a" exDangling exLink H). reflexivity.
Defined.

Lemma Truncate_on_reopen_witness :
  rooted New /\ followLinks 2 New "/a" exStorage = Some exFile /\
  IsDir (mode exFile) = false /\ (2 < 3)%nat /\
  isTruncate createFlags = true /\
  exists h s',
    Memory_OpenFile 3 New "/a" createFlags 438 exStorage = Some (Ok h, s')
    /\ content h = content exFile
    /\ content_Len (content h) s' = 0
    /\ forall h' : file, content h' = content h ->
         content_Len (content h') s' = 0
         /\ forall len off, (file_ReadAt h' len off s').1 = [].
Proof.
  assert (H : followLinks 2 New "/a" exStorage = Some exFile)
    by (vm_compute; reflexivity).
  split; [reflexivity|]. split; [exact H|]. split; [reflexivity|].
  split; [lia|]. split; [reflexivity|].
  apply (Truncate_on_reopen 2 3 New "/a" exStorage exFile createFlags 438);
    [reflexivity|exact H|reflexivity|lia|reflexivity].
Defined.

Lemma Append_keeps_earlier_bytes_witness :
  rooted New /\ followLinks 2 New "/a" exStorage = Some exFile /\
  IsDir (mode exFile) = false /\ (2 < 3)%nat /\
  isAppend (Z.lor O_WRONLY O_APPEND) = true /\
  exists h s1,
    Memory_OpenFile 3 New "/a" (Z.lor O_WRONLY O_APPEND) 0 exStorage
      = Some (Ok h, s1)
    /\ content h = content exFile
    /\ position h = content_Len (content exFile) exStorage
    /\ forall (h' : file) (s2 : storage) (data : list Byte.byte),
         content h' = content h -> position h <= position h' ->
         (forall i : nat,
            (i < length (bytes exStorage (content exFile)))%nat ->
            (i < length (bytes s2 (content exFile)))%nat ->
            bytes (file_Write h' data s2).2 (content exFile) !! i
              = bytes s2 (content exFile) !! i)
         /\ (position h' + Z.of_nat (length data) < 2 ^ 63 ->
             position h' <= position (file_Write h' data s2).1.2
             /\ content (file_Write h' data s2).1.2 = content h').
Proof.
  assert (H : followLinks 2 New "/a" exStorage = Some exFile)
    by (vm_compute; reflexivity).
  split; [reflexivity|]. split; [exact H|]. split; [reflexivity|].
  split; [lia|]. split; [reflexivity|].
  apply (Append_keeps_earlier_bytes 2 3 New "/a" exStorage exFile
           (Z.lor O_WRONLY O_APPEND) 0);
    [reflexivity|exact H|reflexivity|lia|reflexivity].
Defined.

Lemma Create_Write_Open_Read_witness :
  rooted New /\ owned exStorage /\
  chainEnd 2 New "/a" exStorage = Some "/dir/c" /\
  isDirAt "/dir/c" exStorage = false /\ (2 < 3)%nat /\
  Z.of_nat (length (list_byte_of_string "new bytes")) < 2 ^ 63 /\
  exists h s1,
    Memory_Create 3 New "/a" exStorage = Some (Ok h, s1)
    /\ exists h' s2,
         file_Write h (list_byte_of_string "new bytes") s1
           = ((Z.of_nat (length (list_byte_of_string "new bytes")), None),
              h', s2)
    /\ exists r,
         Memory_Open 3 New "/a" s2 = Some (Ok r, s2)
    /\ forall chunk, (0 < chunk)%nat ->
         readAll (S (length (list_byte_of_string "new bytes"))) chunk r s2
           = Some (list_byte_of_string "new bytes", None).
Proof.
  assert (Hq : chainEnd 2 New "/a" exStorage = Some "/dir/c")
    by (vm_compute; reflexivity).
  assert (Hd : isDirAt "/dir/c" exStorage = false) by (vm_compute; reflexivity).
  assert (HB : Z.of_nat (length (list_byte_of_string "new bytes")) < 2 ^ 63)
    by (vm_compute; reflexivity).
  split; [reflexivity|]. split; [exact exStorage_owned|].
  split; [exact Hq|]. split; [exact Hd|]. split; [lia|]. split; [exact HB|].
  apply (Create_Write_Open_Read 2 3 New "/a" exStorage "/dir/c"
           (list_byte_of_string "new bytes"));
    [reflexivity|exact exStorage_owned|exact Hq|exact Hd|lia|exact HB].
Defined.

Lemma Symlink_escaping_target_witness :
  Memory_isTargetOutBounders exChroot "fresh" "../../secret" = true /\
  Memory_Stat 2 exChroot "fresh" exStorageA = Some (Err ErrNotExist) /\
  Memory_Symlink 2 exChroot "../../secret" "fresh" exStorageA
    = Some (Some ErrCrossedBoundary, exStorageA).
Proof.
  assert (H1 : Memory_isTargetOutBounders exChroot "fresh" "../../secret" = true)
    by (vm_compute; reflexivity).
  assert (H2 : Memory_Stat 2 exChroot "fresh" exStorageA
               = Some (Err ErrNotExist)) by (vm_compute; reflexivity).
  split; [exact H1|]. split; [exact H2|].
  exact (Symlink_escaping_target 2 exChroot "../../secret" "fresh" exStorageA
           (Err ErrNotExist) H1 H2).
Defined.

Lemma Symlink_AlreadyExists_iff_Stat_witness :
  rooted New /\ followToFree 1 New "/a" exDangling = Some "/b" /\
  (1 < 2)%nat /\
  Memory_fullpath New (clean "/a") = Memory_fullpath New "/a" /\
  Memory_isTargetOutBounders New "/a" "c" = false /\
  exists (g : file) (s' : storage),
    Memory_Symlink 2 New "c" "/a" exDangling = Some (None, s')
    /\ files s' !! "/b" = Some g
    /\ isSymlink (mode g) = true
    /\ bytes s' (content g) = list_byte_of_string (clean "c")
    /\ files s' !! Memory_fullpath New "/a"
         = files exDangling !! Memory_fullpath New "/a"
    /\ is_Some (files exDangling !! Memory_fullpath New "/a").
Proof.
  assert (H1 : followToFree 1 New "/a" exDangling = Some "/b")
    by (vm_compute; reflexivity).
  assert (H2 : Memory_isTargetOutBounders New "/a" "c" = false)
    by (vm_compute; reflexivity).
  split; [reflexivity|]. split; [exact H1|]. split; [lia|].
  split; [reflexivity|]. split; [exact H2|].
  apply (proj2 (Symlink_AlreadyExists_iff_Stat 2 New "c" "/a" exDangling)
           0%nat "/b"); [reflexivity|exact H1|lia|reflexivity|exact H2].
Defined.

(** * Further properties *)

(** ** Paths under the base *)

Lemma dropCommon_spec (b t : list string) :
  exists common,
    b = common ++ (dropCommon b t).1
    /\ t = common ++ (dropCommon b t).2
    /\ match (dropCommon b t).1, (dropCommon b t).2 with
       | x :: _, y :: _ => x <> y
       | _, _ => True
       end.
Proof.
  revert t. induction b as [|x b IH]; intros t.
  - exists []. simpl. now destruct t.
  - destruct t as [|y t]; [exists []; now simpl|]. simpl.
    destruct (String.eqb_spec x y) as [->|Hne].
    + destruct (IH t) as (c & Hb & Ht & Hd). exists (y :: c).
      simpl. split; [now f_equal|]. split; [now f_equal|exact Hd].
    + exists []. simpl. auto.
Qed.

Lemma HasPrefix_joinSep (e : string) (l : list string) :
  HasPrefix (joinSep (e :: l)) ".." = HasPrefix e "..".
Proof.
  destruct l as [|y l]; [reflexivity|].
  change (joinSep (e :: y :: l)) with (e +:+ String "/" (joinSep (y :: l))).
  set (r := joinSep (y :: l)).
  destruct e as [|c1 [|c2 e]].
  - change (HasPrefix (String "/" r) ".." = HasPrefix "" ".."). reflexivity.
  - change (HasPrefix (String c1 (String "/" r)) ".."
            = HasPrefix (String c1 "") "..").
    cbn [HasPrefix]. change (Ascii.eqb "." "/") with false.
    now rewrite !andb_false_r.
  - change (HasPrefix (String c1 (String c2 (e +:+ String "/" r))) ".."
            = HasPrefix (String c1 (String c2 e)) "..").
    reflexivity.
Qed.

Lemma cleanStep_pushes (l : list string) :
  forall acc, Forall (kept true) l ->
    fold_left (cleanStep true) l acc = rev l ++ acc.
Proof.
  induction l as [|e l IH]; intros acc Hl; [reflexivity|].
  inversion Hl as [|? ? (_ & H1 & H2 & H3) Hl']; subst. cbn [fold_left].
  rewrite (cleanStep_real true acc e) by auto.
  rewrite IH by assumption. cbn [rev]. now rewrite <- app_assoc.
Qed.

(** [Clean] leaves a cleaned rooted path as it is. *)
Lemma Clean_idem_rooted (p : string) :
  HasPrefix p "/" = true -> Clean (Clean p) = Clean p.
Proof.
  intros Hp. rewrite (Clean_rooted (Clean p)) by now apply HasPrefix_Clean.
  rewrite (Clean_rooted p Hp) at 2. f_equal. f_equal.
  pose proof (elems_Clean_rooted (Clean p) (HasPrefix_Clean p Hp)) as H1.
  pose proof (elems_Clean_rooted p Hp) as H2.
  pose proof (cleanElems_kept true (splitSep p) (splitSep_nosep p)) as Hk.
  rewrite (Clean_rooted p Hp).
  change ("/" +:+ ?s) with (String "/" s).
  cbn [splitSep isSep Ascii.eqb Separator Bool.eqb].
  unfold cleanElems at 1. cbn [fold_left].
  change (cleanStep true [] "") with (@nil string).
  destruct (cleanElems true (splitSep p)) as [|e l] eqn:He; [reflexivity|].
  rewrite splitSep_joinSep; [|congruence|].
  - rewrite cleanStep_pushes by assumption. now rewrite app_nil_r, rev_involutive.
  - eapply Forall_impl; [exact Hk|]. now intros ? (? & _).
Qed.

Lemma rooted_no_dotdot (b : string) :
  HasPrefix b "/" = true -> ".." ∉ elems (Clean b).
Proof.
  intros Hb Hin. rewrite (elems_Clean_rooted b Hb) in Hin.
  pose proof (cleanElems_kept true (splitSep b) (splitSep_nosep b)) as Hk.
  rewrite Forall_forall in Hk. destruct (Hk _ Hin) as (_ & _ & _ & Hdd).
  now apply Hdd.
Qed.

(** [validate] accepts a rooted path exactly when it is under the base and
    its first element below the base does not begin with two dots. *)
Lemma validate_None_iff (fs : Memory) (q : string) :
  rooted fs -> HasPrefix q "/" = true ->
  Memory_validate fs q = None
  <-> exists rest, under (base fs) q rest /\ climbs rest = false.
Proof.
  intros Hfs Hq. unfold Memory_validate, under, Rel.
  pose proof (HasPrefix_Clean _ Hfs) as Hcb.
  pose proof (HasPrefix_Clean _ Hq) as Hcq.
  destruct (String.eqb_spec (Clean q) (Clean (base fs))) as [E|NE].
  { simpl. split; [|reflexivity]. intros _. exists []. rewrite E.
    now rewrite app_nil_r. }
  destruct (String.eqb_spec (Clean (base fs)) ".") as [E|_].
  { rewrite E in Hcb. discriminate. }
  rewrite Hcb, Hcq. cbn [Bool.eqb negb].
  destruct (dropCommon_spec (elems (Clean (base fs))) (elems (Clean q)))
    as (common & Hb & Ht & Hd).
  destruct (dropCommon (elems (Clean (base fs))) (elems (Clean q)))
    as [b' t'] eqn:Hdc. cbn [fst snd] in Hb, Ht, Hd.
  destruct b' as [|e b''].
  - rewrite app_nil_r in Hb. cbn [default from_option id].
    assert (Hp : HasPrefix (joinSep t') ".." = climbs t').
    { destruct t' as [|x t'']; [reflexivity|apply HasPrefix_joinSep]. }
    rewrite Hp. split.
    + intros Hv. exists t'. split; [congruence|].
      now destruct (climbs t').
    + intros (rest & Hu & Hc). rewrite Hb, Ht in Hu.
      apply app_inv_head in Hu. subst rest. now rewrite Hc.
  - destruct (String.eqb_spec e "..") as [->|Hne].
    { exfalso. apply (rooted_no_dotdot (base fs) Hfs). rewrite Hb.
      apply list_elem_of_In, in_or_app. right. now left. }
    cbn [default from_option id map app]. rewrite HasPrefix_joinSep. cbn.
    split; [discriminate|].
    intros (rest & Hu & _). exfalso. rewrite Hb, Ht in Hu.
    rewrite <- app_assoc in Hu. apply app_inv_head in Hu. subst t'.
    simpl in Hd. now apply Hd.
Qed.

(** X1.  [validate] accepts a rooted path exactly when the path is under the
    base of the filesystem and its first element below the base does not
    begin with two dots: it lets no path above the base through, and it
    refuses, within the base, the names such as [..x]. *)
Theorem validate_accepts_under_base (fs : Memory) (q : string) :
  rooted fs -> HasPrefix q "/" = true ->
  (Memory_validate fs q = None
   <-> exists rest, under (base fs) q rest /\ climbs rest = false)
  /\ (Memory_validate fs q = Some ErrCrossedBoundary
      <-> forall rest, under (base fs) q rest -> climbs rest = true).
Proof.
  intros Hfs Hq. pose proof (validate_None_iff fs q Hfs Hq) as Hiff.
  split; [exact Hiff|]. split.
  - intros Hv rest Hu. destruct (climbs rest) eqn:Hc; [reflexivity|].
    assert (Memory_validate fs q = None) by (apply Hiff; eauto). congruence.
  - intros Hall. destruct (Memory_validate fs q) as [e|] eqn:Hv.
    + now rewrite (validate_Some _ _ _ Hv).
    + apply (validate_None_iff fs q Hfs Hq) in Hv as (rest & Hu & Hc).
      rewrite (Hall rest Hu) in Hc.
      discriminate.
Qed.

(** ** Handles stay within the boundary *)

Lemma OpenFile_end_Ok (fs : Memory) (p q : string) (f : file) (fl perm : Z)
    (s s' : storage) (h : file) :
  OpenFile_end fs p q f fl perm s = (Ok h, s') ->
  IsDir (mode f) = false /\ content h = content f /\ files s' = files s
  /\ s' = (if isTruncate fl then content_Truncate (content f) s else s).
Proof.
  unfold OpenFile_end. destruct (IsDir (mode f)); [discriminate|].
  destruct (Rel (base fs) q) as [nm|]; [|discriminate].
  pose proof (Duplicate_handle f nm perm fl s) as (Hc & _).
  pose proof (Duplicate_storage f nm perm fl s) as Hs.
  destruct (file_Duplicate f nm perm fl s) as [h0 s0]. simpl in Hc, Hs.
  intros [= <- <-]. repeat split; try assumption.
  rewrite Hs. now destruct (isTruncate fl).
Qed.

(** A handle that [OpenFile] returns is on the buffer of a node of the
    storage, not a directory, at a path that [validate] accepts. *)
Lemma OpenFile_Ok_node (fuel : nat) :
  forall (fs : Memory) (p : string) (fl perm : Z) (s s' : storage) (h : file),
    Memory_OpenFile fuel fs p fl perm s = Some (Ok h, s') ->
    exists (p' : string) (f : file),
      Memory_validate fs (Memory_fullpath fs p') = None
      /\ files s' !! Memory_fullpath fs p' = Some f
      /\ content f = content h
      /\ IsDir (mode f) = false.
Proof.
  induction fuel as [|fuel IH]; intros fs p fl perm s s' h; simpl;
    [discriminate|].
  destruct (Memory_getFromStorage fs (Memory_fullpath fs p) s) as [f|e] eqn:Hg.
  - destruct (Memory_resolveLink fs (Memory_fullpath fs p) f s) as [t [|]].
    + apply IH.
    + intros [= H]. apply OpenFile_end_Ok in H as (Hd & Hc & Hf & _).
      apply getFromStorage_Ok in Hg as [Hv Hn].
      exists p, f. rewrite Hf. auto.
  - destruct (IsNotExist e) eqn:He; [|discriminate].
    destruct (negb (isCreate fl)); [discriminate|].
    destruct (getFromStorage_NotExist _ _ _ _ Hg He) as [Hv Hnone].
    destruct (storage_New (Memory_fullpath fs p) perm fl s) as [[f|e'] s0] eqn:Hn;
      [|discriminate].
    intros [= H]. apply OpenFile_end_Ok in H as (Hd & Hc & Hf & _).
    destruct (storage_New_free _ _ _ _ _ _ Hnone Hn) as (_ & Hf0 & _).
    exists p, f. rewrite Hf. auto.
Qed.

(** X2.  Whatever the path and the symlinks it goes through, a handle that
    [OpenFile] returns is on the buffer of a node that the storage holds
    under the base of the filesystem, and the node is not a directory. *)
Theorem OpenFile_stays_under_base (fuel : nat) (fs : Memory) (p : string)
    (fl perm : Z) (s s' : storage) (h : file) :
  rooted fs ->
  Memory_OpenFile fuel fs p fl perm s = Some (Ok h, s') ->
  exists (q : string) (f : file) (rest : list string),
    files s' !! q = Some f
    /\ content f = content h
    /\ IsDir (mode f) = false
    /\ under (base fs) q rest
    /\ climbs rest = false.
Proof.
  intros Hfs Ho.
  destruct (OpenFile_Ok_node fuel fs p fl perm s s' h Ho)
    as (p' & f & Hv & Hf & Hc & Hd).
  apply (validate_None_iff fs _ Hfs (fullpath_rooted fs p' Hfs)) in Hv
    as (rest & Hu & Hcl).
  exists (Memory_fullpath fs p'), f, rest. auto.
Qed.

(** X3.  [Chroot] narrows the boundary.  The filesystem it returns is rooted,
    its base is under the base of the one it was made from, its counter of
    temp files starts again from zero, and every rooted path that it accepts,
    the one it was made from accepts. *)
Theorem Chroot_narrows (fs fs' : Memory) (p : string) :
  rooted fs -> Memory_Chroot fs p = Ok fs' ->
  rooted fs'
  /\ tempCount fs' = 0
  /\ (exists rest, under (base fs) (base fs') rest /\ climbs rest = false)
  /\ forall q, HasPrefix q "/" = true ->
       Memory_validate fs' q = None -> Memory_validate fs q = None.
Proof.
  intros Hfs Hch. pose proof (Chroot_rooted fs fs' p Hfs Hch) as Hfs'.
  unfold Memory_Chroot in Hch.
  remember (Memory_Join [base fs; p]) as b' eqn:Hb'.
  destruct (Memory_validate fs b') eqn:Hv; [discriminate|].
  injection Hch as <-. clear Hb'.
  change (HasPrefix b' "/" = true) in Hfs'. cbn [base tempCount].
  apply (validate_None_iff fs _ Hfs Hfs') in Hv as (r1 & Hu1 & Hc1).
  split; [exact Hfs'|]. split; [reflexivity|]. split; [eauto|].
  intros q Hq Hv'.
  apply (validate_None_iff (mkMemory b' 0) q Hfs' Hq) in Hv'
    as (r2 & Hu2 & Hc2).
  change (under b' q r2) in Hu2.
  apply (validate_None_iff fs q Hfs Hq). exists (r1 ++ r2). split.
  - unfold under in *. now rewrite Hu2, Hu1, app_assoc.
  - destruct r1 as [|e r1]; [exact Hc2|exact Hc1].
Qed.

(** X4.  Without the create and the truncate flag, [OpenFile] leaves the
    storage as it is, whether it returns a handle or an error: so does
    [Open]. *)
Theorem OpenFile_keeps_storage (fuel : nat) (fs : Memory) (p : string)
    (fl perm : Z) (s s' : storage) (r : result file) :
  isCreate fl = false -> isTruncate fl = false ->
  Memory_OpenFile fuel fs p fl perm s = Some (r, s') -> s' = s.
Proof.
  intros Hc Ht. revert p. induction fuel as [|fuel IH]; intros p; simpl;
    [discriminate|].
  destruct (Memory_getFromStorage fs (Memory_fullpath fs p) s) as [f|e].
  - destruct (Memory_resolveLink fs (Memory_fullpath fs p) f s) as [t [|]].
    + apply IH.
    + intros [= H]. destruct r as [h|e].
      * apply OpenFile_end_Ok in H as (_ & _ & _ & ->). now rewrite Ht.
      * unfold OpenFile_end in H. destruct (IsDir (mode f)); [congruence|].
        destruct (Rel (base fs) (Memory_fullpath fs p)); [|congruence].
        now destruct (file_Duplicate f _ perm fl s).
  - rewrite Hc. simpl. destruct (IsNotExist e); congruence.
Qed.

(** ** Directories through symlinks *)

(** X5.  [ReadDir] never returns an error, and through a chain of symlinks
    it lists the children of the path at the end of the chain, whether a
    node is there or not. *)
Theorem ReadDir_lists_chain_end (fuel : nat) (fs : Memory) (p : string)
    (s : storage) :
  (forall r, Memory_ReadDir fuel fs p s = Some r -> exists l, r = Ok l)
  /\ (forall n q, chainEnd n fs p s = Some q -> (n < fuel)%nat ->
        Memory_ReadDir fuel fs p s = Some (Ok (listing q s))).
Proof.
  split.
  - revert p. induction fuel as [|fuel IH]; intros p r; simpl;
      [discriminate|].
    destruct (Memory_getFromStorage fs (Memory_fullpath fs p) s) as [f|e].
    + destruct (Memory_resolveLink fs (Memory_fullpath fs p) f s) as [t [|]].
      * apply IH.
      * intros [= <-]. eauto.
    + intros [= <-]. eauto.
  - intros n. revert fuel p.
    induction n as [|n IH]; intros fuel p q Hc Hlt;
      (destruct fuel as [|fuel]; [lia|]); simpl in Hc |- *.
    + destruct (Memory_getFromStorage fs (Memory_fullpath fs p) s) as [f|e].
      * destruct (isSymlink (mode f)) eqn:Hl; [discriminate|].
        injection Hc as <-.
        rewrite resolveLink_not_link by assumption. reflexivity.
      * destruct (IsNotExist e); [|discriminate]. now injection Hc as <-.
    + destruct (Memory_getFromStorage fs (Memory_fullpath fs p) s) as [f|e];
        [|discriminate].
      destruct (Memory_resolveLink fs (Memory_fullpath fs p) f s) as [t [|]];
        [|discriminate].
      apply (IH fuel t q Hc). lia.
Qed.

(** X6.  Symlinks are followed without a bound and without a check for
    cycles: from a path of a set of symlinks closed under following them,
    [Stat], [OpenFile] and [ReadDir] return no result, whatever the fuel. *)
Theorem symlink_cycle_never_returns (P : string -> Prop) (fs : Memory)
    (s : storage) :
  linksWithin P fs s ->
  forall (fuel : nat) (p : string), P p ->
    Memory_Stat fuel fs p s = None
    /\ (forall fl perm, Memory_OpenFile fuel fs p fl perm s = None)
    /\ Memory_ReadDir fuel fs p s = None.
Proof.
  intros HP fuel. induction fuel as [|fuel IH]; intros p Hp.
  - repeat split.
  - destruct (HP p Hp) as (f & t & Hg & Hr & Ht).
    destruct (IH t Ht) as (Hs & Ho & Hd).
    simpl. rewrite Hg, Hr, Hs, Hd. repeat split; try reflexivity.
    intros fl perm. apply Ho.
Qed.

(** ** The cursor of a handle *)

(** X7.  Once closed, a handle stays closed and does nothing more: [Close]
    again, [ReadAt], [Read], [Write] and [Seek] all return [ErrClosed], no
    byte is read or written, and [Write] and [Seek] leave the handle and
    the storage as they were.  The first [Close] of an open handle returns
    no error. *)
Theorem closed_handle_refuses (h : file) :
  let h' := (file_Close h).2 in
  isClosed h' = true
  /\ (isClosed h = false -> (file_Close h).1 = None)
  /\ file_Close h' = (Some ErrClosed, h')
  /\ forall (s : storage) (len : nat) (off : Z) (data : list Byte.byte)
            (whence : Z),
       file_ReadAt h' len off s = ([], Some ErrClosed)
       /\ (file_Read h' len s).1 = ([], Some ErrClosed)
       /\ file_Write h' data s = ((0, Some ErrClosed), h', s)
       /\ file_Seek h' off whence s = ((0, Some ErrClosed), h').
Proof.
  intros h'.
  assert (Hc : isClosed h' = true).
  { unfold h', file_Close. destruct (isClosed h) eqn:E; [exact E|reflexivity]. }
  split; [exact Hc|]. split.
  { intros E. unfold file_Close. now rewrite E. }
  split; [unfold file_Close; now rewrite Hc|].
  intros s len off data whence.
  unfold file_Read, file_ReadAt, file_Write, file_Seek. rewrite Hc.
  repeat split.
Qed.

(** X8.  [Read] on an open handle that may read, its cursor not negative and
    not about to overflow: the bytes returned are the bytes of the buffer
    from the cursor on, at most [len] of them; the end-of-data error is
    returned exactly when the cursor is at or past the end of the buffer;
    and the cursor moves forward by the number of bytes returned. *)
Theorem Read_at_cursor (h : file) (len : nat) (s : storage) :
  isClosed h = false ->
  isReadAndWrite (flag h) || isReadOnly (flag h) = true ->
  0 <= position h -> position h + Z.of_nat len < 2 ^ 63 ->
  let B := bytes s (content h) in
  let got := take len (drop (Z.to_nat (position h)) B) in
  file_Read h len s
  = ((got, if Z.of_nat (length B) <=? position h then Some EOF else None),
     setPosition (position h + Z.of_nat (length got)) h).
Proof.
  intros Hop Hrd Hpos Hfit B got.
  assert (Hlen : (length got <= len)%nat).
  { unfold got. rewrite length_take. lia. }
  unfold file_Read, file_ReadAt. rewrite Hop.
  replace (negb (isReadAndWrite (flag h)) && negb (isReadOnly (flag h)))
    with false by (now destruct (isReadAndWrite (flag h)),
                                (isReadOnly (flag h))).
  unfold content_ReadAt, content_Len. fold B.
  destruct (position h <? 0) eqn:Hneg; [lia|].
  destruct (Z.of_nat (length B) <=? position h) eqn:Hend.
  - assert (Hgot : got = []).
    { unfold got. rewrite drop_ge by lia. apply take_nil. }
    rewrite Hgot. cbn [length Z.of_nat Z.eqb negb].
    rewrite wrap64_small by lia. reflexivity.
  - fold got. rewrite wrap64_small by lia. f_equal. f_equal.
    destruct (length got <? len)%nat eqn:Hshort; [|reflexivity].
    destruct (Z.of_nat (length got) =? 0) eqn:Hz; [|reflexivity].
    exfalso. apply Z.eqb_eq in Hz. apply Nat.ltb_lt in Hshort.
    apply Z.leb_gt in Hend.
    unfold got in Hz, Hshort. rewrite length_take, length_drop in Hz, Hshort.
    lia.
Qed.

(** X9.  After [Seek] to the end, a [Write] through a handle that may write
    appends: the buffer is the buffer before followed by the data, the count
    is the length of the data, and the cursor is at the new end. *)
Theorem Seek_end_then_Write_appends (h : file) (data : list Byte.byte)
    (s : storage) :
  isClosed h = false ->
  isReadAndWrite (flag h) || isWriteOnly (flag h) = true ->
  Z.of_nat (length (bytes s (content h))) + Z.of_nat (length data) < 2 ^ 63 ->
  let B := bytes s (content h) in
  let '((pos, e1), h1) := file_Seek h 0 SeekEnd s in
  let '((n, e2), h2, s2) := file_Write h1 data s in
  pos = Z.of_nat (length B) /\ e1 = None
  /\ n = Z.of_nat (length data) /\ e2 = None
  /\ bytes s2 (content h) = B ++ data
  /\ files s2 = files s
  /\ h2 = setPosition (Z.of_nat (length B) + Z.of_nat (length data)) h.
Proof.
  intros Hop Hwr Hfit B. fold B in Hfit. unfold file_Seek. rewrite Hop.
  cbn [SeekEnd SeekCurrent SeekStart Z.eqb Pos.eqb]. unfold content_Len. fold B.
  rewrite Z.add_0_r. rewrite wrap64_small by lia.
  unfold file_Write. cbn [isClosed setPosition flag position content].
  rewrite Hop.
  replace (negb (isReadAndWrite (flag h)) && negb (isWriteOnly (flag h)))
    with false by (now destruct (isReadAndWrite (flag h)),
                                (isWriteOnly (flag h))).
  unfold content_WriteAt. fold B.
  destruct (Z.of_nat (length B) <? 0) eqn:Hneg; [lia|].
  rewrite wrap64_small by lia.
  repeat split.
  rewrite bytes_setBytes_eq, Nat2Z.id, Nat.sub_diag. cbn [replicate].
  rewrite app_nil_r, take_ge by lia.
  rewrite drop_ge by lia. now rewrite app_nil_r.
Qed.

(** X10.  What a handle open for reading and writing has written, it reads
    back: after a [Write] at a cursor that is not negative, with no overflow,
    a [Seek] back by the count returns the cursor to where it was, and a
    [Read] of as many bytes returns the data. *)
Theorem Write_Seek_back_Read (h : file) (data : list Byte.byte)
    (s : storage) :
  isClosed h = false ->
  isReadAndWrite (flag h) = true ->
  0 <= position h ->
  position h + Z.of_nat (length data) < 2 ^ 63 ->
  let '((n, e1), h1, s1) := file_Write h data s in
  let '((pos, e2), h2) := file_Seek h1 (- n) SeekCurrent s1 in
  n = Z.of_nat (length data) /\ e1 = None
  /\ pos = position h /\ e2 = None
  /\ (file_Read h2 (length data) s1).1.1 = data.
Proof.
  intros Hop Hrw Hpos Hfit. unfold file_Write. rewrite Hop, Hrw.
  cbn [negb andb]. unfold content_WriteAt.
  destruct (position h <? 0) eqn:Hneg; [lia|].
  rewrite wrap64_small by lia.
  unfold file_Seek. cbn [isClosed setPosition position].
  rewrite Hop. cbn [SeekCurrent Z.eqb Pos.eqb].
  replace (position h + Z.of_nat (length data) + - Z.of_nat (length data))
    with (position h) by lia.
  rewrite wrap64_small by lia.
  repeat split.
  unfold file_Read, file_ReadAt.
  cbn [isClosed setPosition position flag content].
  rewrite Hop, Hrw. cbn [negb andb].
  unfold content_ReadAt, content_Len. rewrite Hneg, bytes_setBytes_eq.
  set (o := Z.to_nat (position h)).
  set (old := bytes s (content h)).
  set (pre := take o (old ++ replicate (o - length old) Byte.x00)).
  assert (Hpre : length pre = o).
  { unfold pre. rewrite length_take, length_app, length_replicate. lia. }
  destruct (Z.of_nat (length (pre ++ data ++ drop (o + length data) old))
            <=? position h) eqn:Hend.
  - apply Z.leb_le in Hend. rewrite !length_app in Hend.
    destruct data as [|b data]; [reflexivity|]. cbn [length] in Hend. lia.
  - cbn [fst].
    replace (drop o (pre ++ data ++ drop (o + length data) old))
      with (data ++ drop (o + length data) old).
    + now rewrite take_app_length.
    + transitivity
        (drop (length pre) (pre ++ data ++ drop (o + length data) old)).
      * now rewrite drop_app_length.
      * now rewrite Hpre.
Qed.

(** ** A symlink and its target *)

(** X11.  [Symlink] at a link path that is not rooted, within the boundary
    and free, with a target within the boundary, succeeds, and the link can
    be read back: [Readlink] returns the cleaned target, [Lstat] reports a
    symlink under the base name of the link path whose size is the length of
    the cleaned target, and the nodes and buffers that were there are as
    they were. *)
Theorem Symlink_then_Readlink (fuel : nat) (fs : Memory)
    (target link : string) (s : storage) :
  rooted fs -> (0 < fuel)%nat ->
  HasPrefix link "/" = false ->
  Memory_validate fs (Memory_fullpath fs link) = None ->
  files s !! Memory_fullpath fs link = None ->
  Memory_isTargetOutBounders fs link target = false ->
  exists s' : storage,
    Memory_Symlink fuel fs target link s = Some (None, s')
    /\ Memory_Readlink fs link s' = Ok (clean target)
    /\ Memory_Lstat fs link s'
       = Ok (mkFileInfo (Base (Memory_fullpath fs link))
               (Z.of_nat (String.length (clean target))) linkMode)
    /\ extends s s'.
Proof.
  intros Hfs Hfuel Hrel Hv Hnone Hin.
  pose proof (fullpath_clean fs link Hfs Hrel) as Hclean.
  set (q := Memory_fullpath fs link) in *.
  assert (Hg : Memory_getFromStorage fs q s = Err ErrNotExist).
  { unfold Memory_getFromStorage, storage_Get. now rewrite Hv, Hnone. }
  assert (Hq : chainEnd 0 fs link s = Some q).
  { simpl. fold q. now rewrite Hg. }
  assert (Hfree : followToFree 0 fs link s = Some q).
  { unfold followToFree, storage_Get. now rewrite Hq, Hnone. }
  unfold Memory_Symlink.
  rewrite (Stat_followToFree 0 fuel fs link s q Hfree Hfuel).
  simpl negb. cbn iota. rewrite Hin.
  rewrite <- (chainEnd_fullpath 0 fs (clean link) link s Hclean) in Hq.
  destruct (OpenFile_chain_free 0 fuel fs (clean link) s q writeFlags
              linkMode Hfs Hq Hnone Hfuel eq_refl eq_refl)
    as (f & s0 & Hnew & Hopen).
  destruct (storage_New_free q linkMode writeFlags s f s0 Hnone Hnew)
    as (-> & Hf0 & Hb0 & (Hext & Hbs & Hnx)).
  unfold WriteFile. fold writeFlags. fold linkMode. rewrite Hopen.
  set (data := list_byte_of_string (clean target)).
  set (nm := default "" (Rel (base fs) q)).
  set (c := next s) in *.
  set (s1 := content_Truncate c s0).
  assert (Hop : opened fs q (mkFile (Base q) c 0 writeFlags linkMode false)
                  writeFlags linkMode s0
                = (mkFile nm c 0 writeFlags linkMode false, s1))
    by reflexivity.
  rewrite Hop. cbn [fst snd].
  assert (Hw : file_Write (mkFile nm c 0 writeFlags linkMode false) data s1
             = ((Z.of_nat (length data), None),
                setPosition (wrap64 (0 + Z.of_nat (length data)))
                  (mkFile nm c 0 writeFlags linkMode false),
                setBytes c data s1)).
  { unfold file_Write, content_WriteAt. cbn [isClosed flag content position].
    change (isReadAndWrite writeFlags) with false.
    change (isWriteOnly writeFlags) with true. cbn [negb andb].
    change (0 <? 0) with false. cbn iota. change (Z.to_nat 0) with 0%nat.
    assert (Hb1 : bytes s1 c = []) by apply bytes_setBytes_eq.
    rewrite Hb1. cbn [length Nat.sub replicate app take].
    rewrite drop_nil, app_nil_r. reflexivity. }
  rewrite Hw. rewrite Z.ltb_irrefl. cbn [file_Close isClosed setPosition].
  eexists. split; [reflexivity|].
  assert (Hget : Memory_getFromStorage fs q (setBytes c data s1)
                 = Ok (mkFile (Base q) c 0 writeFlags linkMode false)).
  { apply getFromStorage_Ok. split; [exact Hv|exact Hf0]. }
  assert (Hlen : length data = String.length (clean target)).
  { unfold data.
    rewrite <- (string_of_list_byte_of_string (clean target)) at 2.
    now rewrite length_string_of_list_byte. }
  split; [|split].
  - unfold Memory_Readlink. fold q. rewrite Hget. cbn [mode content].
    change (isSymlink linkMode) with true. cbn [negb].
    rewrite bytes_setBytes_eq. unfold data.
    now rewrite string_of_list_byte_of_string.
  - unfold Memory_Lstat. fold q. rewrite Hget.
    unfold file_Stat, file_Name, content_Len. cbn [name content mode].
    now rewrite bytes_setBytes_eq, Hlen.
  - split; [exact Hext|]. split; [|exact Hnx].
    intros l Hl. unfold s1, content_Truncate. rewrite !bytes_setBytes.
    destruct (decide (c = l)) as [E|_]; [unfold c in E; lia|].
    now apply Hbs.
Qed.

(** ** Names that do not climb *)

Lemma Clean_fromElems (p : string) :
  p <> "" -> Clean p = fromElems (HasPrefix p "/") (pathElems p).
Proof.
  intros Hp. unfold Clean, fromElems, pathElems.
  destruct (String.eqb_spec p ""); [contradiction|]. reflexivity.
Qed.

(** A [..] at the bottom of the scan of a path that is not rooted stays
    there. *)
Lemma dotdot_stays (l : list string) :
  forall acc, exists acc',
    fold_left (cleanStep false) l (acc ++ [".."]) = acc' ++ [".."].
Proof.
  induction l as [|e l IH]; intros acc; [eauto|]. cbn [fold_left].
  assert (H : exists acc', cleanStep false (acc ++ [".."]) e = acc' ++ [".."]).
  { unfold cleanStep. destruct (_ || _); [eauto|].
    destruct (String.eqb e "..").
    - destruct acc as [|top rest]; [exists [e]; reflexivity|].
      cbn [app]. destruct (String.eqb top "..").
      + exists (e :: top :: rest). reflexivity.
      + eauto.
    - exists (e :: acc). reflexivity. }
  destruct H as [acc' ->]. apply IH.
Qed.

(** The scan of a name that is not rooted and does not climb goes on above
    whatever is below it. *)
Lemma scan_above (r : bool) (l : list string) :
  forall acc S,
    Forall (fun e => e <> "..") acc ->
    last (fold_left (cleanStep false) l acc) <> Some ".." ->
    fold_left (cleanStep r) l (acc ++ S)
      = fold_left (cleanStep false) l acc ++ S
    /\ Forall (fun e => e <> "..") (fold_left (cleanStep false) l acc).
Proof.
  induction l as [|e l IH]; intros acc S Hacc Hlast; [now split|].
  cbn [fold_left] in *.
  destruct (String.eqb_spec e "") as [->|Hne]; [now apply IH|].
  destruct (String.eqb_spec e ".") as [->|Hnd]; [now apply IH|].
  destruct (String.eqb_spec e "..") as [->|Hndd].
  - destruct acc as [|top rest].
    + exfalso. apply Hlast.
      change (cleanStep false [] "..") with ([] ++ [".."]).
      destruct (dotdot_stays l []) as [acc' ->]. apply last_snoc.
    + inversion Hacc as [|? ? Htop Hrest]; subst.
      assert (H1 : cleanStep false (top :: rest) ".." = rest).
      { unfold cleanStep. cbn [String.eqb Ascii.eqb Bool.eqb orb].
        now destruct (String.eqb_spec top ".."). }
      assert (H2 : cleanStep r ((top :: rest) ++ S) ".." = rest ++ S).
      { unfold cleanStep. cbn [String.eqb Ascii.eqb Bool.eqb orb app].
        now destruct (String.eqb_spec top ".."). }
      rewrite H1 in Hlast |- *. rewrite H2. now apply IH.
  - rewrite (cleanStep_real false acc e) in Hlast |- * by assumption.
    rewrite (cleanStep_real r (acc ++ S) e) by assumption.
    apply (IH (e :: acc) S); [now constructor|assumption].
Qed.

Lemma last_head_rev (l : list string) : last l = head (rev l).
Proof.
  rewrite <- (rev_involutive l) at 1. generalize (rev l).
  intros [|x k]; [reflexivity|]. cbn [rev]. apply last_snoc.
Qed.

(** A name that is not rooted climbs when the first element that [Clean]
    keeps of it begins with two dots. *)
Lemma isCrossBoundaries_climbs (p : string) :
  HasPrefix p "/" = false -> isCrossBoundaries p = climbs (pathElems p).
Proof.
  intros Hp. unfold isCrossBoundaries, ToSlash, Clean, pathElems.
  rewrite Hp. destruct (String.eqb_spec p "") as [->|_]; [reflexivity|].
  destruct (cleanElems false (splitSep p)) as [|e l]; [reflexivity|].
  apply HasPrefix_joinSep.
Qed.

(** The elements of a base and of a name under it: the name is not rooted
    and does not climb. *)
Lemma pathElems_join (b p : string) :
  b <> "" -> HasPrefix p "/" = false -> isCrossBoundaries p = false ->
  HasPrefix (joinSep [b; p]) "/" = HasPrefix b "/"
  /\ pathElems (joinSep [b; p]) = pathElems b ++ pathElems p
  /\ Forall (fun e => e <> "..") (pathElems p).
Proof.
  intros Hb Hp Hin.
  change (joinSep [b; p]) with (b +:+ String "/" p).
  assert (Hr : HasPrefix (b +:+ String "/" p) "/" = HasPrefix b "/").
  { destruct b as [|c b']; [contradiction|]. reflexivity. }
  split; [exact Hr|].
  rewrite (isCrossBoundaries_climbs p Hp) in Hin.
  unfold pathElems in *. rewrite Hr, Hp in *. rewrite splitSep_sep.
  unfold cleanElems in *. rewrite fold_left_app.
  set (S := fold_left (cleanStep (HasPrefix b "/")) (splitSep b) []).
  destruct (scan_above (HasPrefix b "/") (splitSep p) [] S) as [Hs Hall].
  - constructor.
  - intros Hl. rewrite last_head_rev in Hl.
    destruct (rev (fold_left (cleanStep false) (splitSep p) [])) as [|e l];
      [discriminate|].
    injection Hl as ->. discriminate.
  - cbn [app] in Hs. rewrite Hs, rev_app_distr. split; [reflexivity|].
    now apply Forall_rev.
Qed.

(** The path that [Join] makes of a rooted base and such a name is under
    the base. *)
Lemma Join_under (b p : string) :
  HasPrefix b "/" = true -> HasPrefix p "/" = false ->
  isCrossBoundaries p = false ->
  under b (Join [b; p]) (pathElems p).
Proof.
  intros Hb Hp Hin.
  assert (Hne : b <> "") by (intros ->; discriminate).
  destruct (pathElems_join b p Hne Hp Hin) as (Hr & He & _).
  rewrite Hb in Hr. unfold under.
  assert (HJ : Join [b; p] = Clean (joinSep [b; p])).
  { cbn [Join]. now destruct (String.eqb_spec b ""). }
  rewrite HJ, (Clean_idem_rooted _ Hr), (elems_Clean_rooted _ Hr).
  rewrite (elems_Clean_rooted b Hb).
  unfold pathElems in He. now rewrite Hr, Hb in He.
Qed.

(** X12.  [Memory] refuses no name that is not rooted and does not climb:
    under a rooted base, the full path of such a name is the elements of the
    base followed by the elements that [Clean] keeps of the name, and
    [validate] accepts it. *)
Theorem relative_name_accepted (fs : Memory) (p : string) :
  rooted fs -> HasPrefix p "/" = false -> isCrossBoundaries p = false ->
  under (base fs) (Memory_fullpath fs p) (pathElems p)
  /\ Memory_validate fs (Memory_fullpath fs p) = None.
Proof.
  intros Hfs Hp Hin.
  assert (Hu : under (base fs) (Memory_fullpath fs p) (pathElems p)).
  { pose proof (Join_under (base fs) p Hfs Hp Hin) as Hu.
    unfold under in *. unfold Memory_fullpath, clean, FromSlash, Memory_Join.
    rewrite Clean_idem_rooted; [exact Hu|]. now apply HasPrefix_Join. }
  split; [exact Hu|].
  apply (validate_None_iff fs _ Hfs (fullpath_rooted fs p Hfs)).
  exists (pathElems p). split; [exact Hu|].
  now rewrite <- (isCrossBoundaries_climbs p Hp).
Qed.

(** ** The boundary of a subdirectory *)

Section subdir.

Context {St F F' : Type}.
Variable newFile : SubDir St F -> F -> string -> F'.

(** X13.  Every operation of [SubDir] refuses a name that climbs with the
    boundary error, before the underlying filesystem is called: its state is
    as it was.  So do [Rename] for either of its names and [Symlink] for its
    link path, whatever the target. *)
Theorem SubDir_refuses_climbing_names (fs : SubDir St F) (p : string)
    (st : St) :
  isCrossBoundaries p = true ->
  SubDir_underlyingPath fs p = Err ErrCrossedBoundary
  /\ SubDir_Create newFile fs p st = Some (Err ErrCrossedBoundary, st)
  /\ SubDir_Open newFile fs p st = Some (Err ErrCrossedBoundary, st)
  /\ (forall flag mode,
        SubDir_OpenFile newFile fs p flag mode st
        = Some (Err ErrCrossedBoundary, st))
  /\ (forall prefix,
        SubDir_TempFile newFile fs p prefix st
        = Some (Err ErrCrossedBoundary, st))
  /\ (forall other,
        SubDir_Rename fs p other st = Some (Some ErrCrossedBoundary, st)
        /\ SubDir_Rename fs other p st = Some (Some ErrCrossedBoundary, st))
  /\ SubDir_Remove fs p st = Some (Some ErrCrossedBoundary, st)
  /\ (forall perm,
        SubDir_MkdirAll fs p perm st = Some (Some ErrCrossedBoundary, st))
  /\ SubDir_Stat fs p st = Some (Err ErrCrossedBoundary, st)
  /\ SubDir_Lstat fs p st = Some (Err ErrCrossedBoundary, st)
  /\ SubDir_ReadDir fs p st = Some (Err ErrCrossedBoundary, st)
  /\ (forall target,
        SubDir_Symlink fs target p st = Some (Some ErrCrossedBoundary, st))
  /\ SubDir_Readlink fs p st = Some (Err ErrCrossedBoundary, st)
  /\ SubDir_Chroot fs p = Err ErrCrossedBoundary.
Proof.
  intros Hp.
  assert (Hu : SubDir_underlyingPath fs p = Err ErrCrossedBoundary).
  { unfold SubDir_underlyingPath. now rewrite Hp. }
  unfold SubDir_Create, SubDir_Open, SubDir_OpenFile, SubDir_TempFile,
    SubDir_Rename, SubDir_Remove, SubDir_MkdirAll, SubDir_Stat, SubDir_Lstat,
    SubDir_ReadDir, SubDir_Symlink, SubDir_Readlink, SubDir_Chroot.
  rewrite Hu. repeat split.
  - unfold SubDir_underlyingPath. now destruct (isCrossBoundaries other).
  - intros target. now destruct (SubDir_isTargetOutBounders fs p _).
Qed.

(** X14.  A name that is not rooted and does not climb is taken under the
    base, where the underlying filesystem joins paths as [filepath.Join]
    does: the path given to the underlying filesystem is the elements of the
    base followed by the elements that [Clean] keeps of the name, none of
    them [..]. *)
Theorem SubDir_underlyingPath_under_base (fs : SubDir St F) (p : string) :
  (forall l, fs_Join (underlying fs) l = Join l) ->
  SubDir_base fs <> "" ->
  HasPrefix p "/" = false -> isCrossBoundaries p = false ->
  SubDir_underlyingPath fs p
  = Ok (fromElems (HasPrefix (SubDir_base fs) "/")
          (pathElems (SubDir_base fs) ++ pathElems p))
  /\ Forall (fun e => e <> "..") (pathElems p).
Proof.
  intros HJ Hb Hp Hin.
  destruct (pathElems_join (SubDir_base fs) p Hb Hp Hin) as (Hr & He & Hall).
  split; [|exact Hall].
  unfold SubDir_underlyingPath, SubDir_Join, SubDir_Root.
  rewrite Hin, HJ. f_equal. cbn [Join].
  destruct (String.eqb_spec (SubDir_base fs) ""); [contradiction|].
  rewrite Clean_fromElems, Hr, He; [reflexivity|].
  change (joinSep [SubDir_base fs; p])
    with (SubDir_base fs +:+ String "/" p).
  destruct (SubDir_base fs); discriminate.
Qed.

(** X15.  The check of [SubDir] does not see a rooted name: none is
    refused, and a name that begins with [/../] is taken out of the base,
    to the path of that name under the parent of the base. *)
Theorem SubDir_rooted_name_escapes (fs : SubDir St F) :
  (forall p, HasPrefix p "/" = true ->
     SubDir_underlyingPath fs p
     = Ok (SubDir_Join fs [SubDir_Root fs; p]))
  /\ forall (x d : string) (E : list string),
       (forall l, fs_Join (underlying fs) l = Join l) ->
       pathElems (SubDir_base fs) = E ++ [d] -> d <> ".." ->
       HasPrefix x "/" = false -> isCrossBoundaries x = false ->
       SubDir_underlyingPath fs ("/../" +:+ x)
       = Ok (fromElems (HasPrefix (SubDir_base fs) "/") (E ++ pathElems x)).
Proof.
  assert (H1 : forall p, HasPrefix p "/" = true ->
                 SubDir_underlyingPath fs p
                 = Ok (SubDir_Join fs [SubDir_Root fs; p])).
  { intros p Hp. unfold SubDir_underlyingPath, isCrossBoundaries, ToSlash.
    now rewrite (Clean_rooted p Hp). }
  split; [exact H1|].
  intros x d E HJ HE Hd Hx Hin.
  set (b := SubDir_base fs) in *.
  assert (Hb : b <> "").
  { intros E0. rewrite E0 in HE. now destruct E. }
  rewrite H1 by reflexivity.
  unfold SubDir_Join, SubDir_Root. fold b. rewrite HJ. f_equal. cbn [Join].
  destruct (String.eqb_spec b "") as [|_]; [contradiction|].
  change (joinSep [b; "/../" +:+ x])
    with (b +:+ String "/" ("" +:+ String "/" (".." +:+ String "/" x))).
  set (n := b +:+ String "/" ("" +:+ String "/" (".." +:+ String "/" x))).
  assert (Hr : HasPrefix n "/" = HasPrefix b "/").
  { unfold n. destruct b; [contradiction|reflexivity]. }
  assert (Hn : n <> "").
  { unfold n. destruct b; discriminate. }
  rewrite (Clean_fromElems n Hn), Hr. f_equal.
  unfold pathElems in *. rewrite Hr. unfold n. rewrite !splitSep_sep.
  unfold cleanElems in *. rewrite !fold_left_app.
  apply (f_equal (@rev string)) in HE.
  rewrite rev_involutive, rev_app_distr in HE. cbn [rev app] in HE.
  rewrite HE. rewrite Hx in *.
  assert (Hs : fold_left (cleanStep (HasPrefix b "/")) (splitSep "..")
                 (fold_left (cleanStep (HasPrefix b "/")) (splitSep "")
                    (d :: rev E)) = rev E).
  { cbn. unfold cleanStep. cbn [String.eqb Ascii.eqb Bool.eqb orb].
    now destruct (String.eqb_spec d ".."). }
  rewrite Hs.
  destruct (scan_above (HasPrefix b "/") (splitSep x) [] (rev E)) as [Hsc _].
  - constructor.
  - rewrite (isCrossBoundaries_climbs x Hx) in Hin.
    unfold pathElems, cleanElems in Hin. rewrite Hx in Hin.
    intros Hl. rewrite last_head_rev in Hl.
    destruct (rev (fold_left (cleanStep false) (splitSep x) [])) as [|e l];
      [discriminate|].
    injection Hl as ->. discriminate.
  - cbn [app] in Hsc. rewrite Hsc, rev_app_distr, rev_involutive.
    reflexivity.
Qed.

End subdir.

(** ** The path of a temp file *)

(** A cleaned rooted path joined to a rooted base: its elements follow those
    of the base. *)
Lemma Join_cleaned (b q : string) :
  HasPrefix b "/" = true -> HasPrefix q "/" = true ->
  elems (Clean (Join [b; Clean q]))
  = elems (Clean b) ++ elems (Clean q).
Proof.
  intros Hb Hq.
  assert (Hne : b <> "") by (intros ->; discriminate).
  assert (HJ : Join [b; Clean q] = Clean (joinSep [b; Clean q])).
  { cbn [Join]. now destruct (String.eqb_spec b ""). }
  assert (Hr : HasPrefix (joinSep [b; Clean q]) "/" = true).
  { change (joinSep [b; Clean q]) with (b +:+ String "/" (Clean q)).
    destruct b; [contradiction|exact Hb]. }
  rewrite HJ, (Clean_idem_rooted _ Hr), (elems_Clean_rooted _ Hr).
  rewrite (elems_Clean_rooted b Hb), (elems_Clean_rooted q Hq).
  change (joinSep [b; Clean q]) with (b +:+ String "/" (Clean q)).
  rewrite splitSep_sep. unfold cleanElems at 1. rewrite fold_left_app.
  pose proof (cleanElems_kept true (splitSep q) (splitSep_nosep q)) as Hk.
  rewrite (Clean_rooted q Hq).
  change ("/" +:+ ?s) with (String "/" s).
  cbn [splitSep isSep Ascii.eqb Separator Bool.eqb].
  set (Sb := fold_left (cleanStep true) (splitSep b) []).
  destruct (cleanElems true (splitSep q)) as [|e l] eqn:He.
  - cbn. now rewrite app_nil_r.
  - rewrite splitSep_joinSep; [|congruence|].
    + change (fold_left (cleanStep true) ("" :: e :: l) Sb)
        with (fold_left (cleanStep true) (e :: l) Sb).
      rewrite cleanStep_pushes by assumption.
      now rewrite rev_app_distr, rev_involutive.
    + eapply Forall_impl; [exact Hk|]. now intros ? (? & _).
Qed.

(** X16.  [TempFile] joins the base twice.  The candidate that it looks up
    in the storage is the path of the name under the base; it gives that
    path to [Create], which joins it to the base again: the path that is
    opened is the candidate below the base, another path unless the base is
    the root, and where it is free the node of the handle is made there. *)
Theorem TempFile_joins_base_twice (fuel : nat) (clock : Z -> Z)
    (fs fs' : Memory) (dir prefix : string) (s s' : storage) (h : file) :
  rooted fs ->
  Memory_TempFile fuel clock fs dir prefix s = Some (Ok h, fs', s') ->
  let cand := tempName clock (base fs) dir prefix (tempCount fs') in
  let made := Memory_fullpath fs' cand in
  base fs' = base fs
  /\ files s !! cand = None
  /\ Memory_Create fuel fs' cand s = Some (Ok h, s')
  /\ elems (Clean made) = elems (Clean (base fs)) ++ elems (Clean cand)
  /\ (elems (Clean (base fs)) <> [] -> made <> cand)
  /\ (files s !! made = None ->
      exists f, files s' !! made = Some f /\ content f = content h).
Proof.
  intros Hfs Ht cand made.
  destruct (tempLoop_spec clock dir prefix s
              (S (Z.to_nat (maxTempFiles - tempCount fs))) fs)
    as (r & fs1 & Hloop & Hb & _ & _ & Hr); [lia|].
  unfold Memory_TempFile in Ht. rewrite Hloop in Ht.
  destruct r as [c|e]; [|discriminate].
  destruct Hr as (_ & Hc & Hfree).
  destruct (Memory_Create fuel fs1 c s) as [[r' s1]|] eqn:Hcr; [|discriminate].
  injection Ht as -> -> ->. fold cand in Hc. subst c.
  split; [exact Hb|]. split; [exact Hfree|]. split; [exact Hcr|].
  assert (Hel : elems (Clean made)
                = elems (Clean (base fs)) ++ elems (Clean cand)).
  { unfold made, Memory_fullpath, clean, FromSlash, Memory_Join.
    rewrite Hb.
    assert (Hj : exists q, HasPrefix q "/" = true /\ cand = Clean q).
    { unfold cand, tempName, Memory_Join. cbn [Join].
      destruct (String.eqb_spec (base fs) "") as [E|_].
      - unfold rooted in Hfs. rewrite E in Hfs. discriminate.
      - eexists. split; [|reflexivity].
        destruct (HasPrefix_sep (base fs) Hfs) as [b' ->]. reflexivity. }
    destruct Hj as (q & Hq & ->).
    rewrite (Clean_idem_rooted (Join [base fs; Clean q]))
      by now apply HasPrefix_Join.
    rewrite (Join_cleaned (base fs) q Hfs Hq).
    now rewrite (Clean_idem_rooted q Hq). }
  split; [exact Hel|]. split.
  - intros HE Heq. rewrite Heq in Hel.
    apply (f_equal (@length string)) in Hel. rewrite length_app in Hel.
    destruct (elems (Clean (base fs))); [contradiction|]. cbn in Hel. lia.
  - intros Hnone. unfold Memory_Create in Hcr.
    destruct fuel as [|fuel]; [discriminate|]. cbn [Memory_OpenFile] in Hcr.
    fold made in Hcr.
    assert (Hg : Memory_getFromStorage fs' made s = Err ErrNotExist).
    { unfold Memory_getFromStorage, storage_Get in *. rewrite Hnone in *.
      destruct (Memory_validate fs' made) as [e|] eqn:Hv; [|reflexivity].
      rewrite (validate_Some _ _ _ Hv) in Hcr. discriminate. }
    rewrite Hg in Hcr. cbn [IsNotExist] in Hcr.
    change (negb (isCreate createFlags)) with false in Hcr. cbn iota in Hcr.
    destruct (storage_New made createPerm createFlags s) as [[f|e] s0]
      eqn:Hn; [|discriminate].
    injection Hcr as Hend.
    apply OpenFile_end_Ok in Hend as (_ & Hc & Hf & _).
    destruct (storage_New_free _ _ _ _ _ _ Hnone Hn) as (_ & Hf0 & _).
    exists f. rewrite Hf. auto.
Qed.

(** ** The further properties at the example states *)

Lemma validate_accepts_under_base_witness :
  rooted exChroot /\ HasPrefix "/a/x/y" "/" = true
  /\ ((Memory_validate exChroot "/a/x/y" = None
       <-> exists rest, under (base exChroot) "/a/x/y" rest
                        /\ climbs rest = false)
      /\ (Memory_validate exChroot "/a/x/y" = Some ErrCrossedBoundary
          <-> forall rest, under (base exChroot) "/a/x/y" rest ->
                           climbs rest = true)).
Proof.
  assert (H1 : rooted exChroot) by reflexivity.
  assert (H2 : HasPrefix "/a/x/y" "/" = true) by reflexivity.
  split; [exact H1|]. split; [exact H2|].
  exact (validate_accepts_under_base exChroot "/a/x/y" H1 H2).
Defined.

Lemma OpenFile_stays_under_base_witness :
  rooted New
  /\ Memory_OpenFile 3 New "/a" O_RDONLY 0 exStorage
     = Some (Ok exOpened, exStorage)
  /\ exists (q : string) (f : file) (rest : list string),
       files exStorage !! q = Some f
       /\ content f = content exOpened
       /\ IsDir (mode f) = false
       /\ under (base New) q rest
       /\ climbs rest = false.
Proof.
  assert (H1 : rooted New) by reflexivity.
  assert (H2 : Memory_OpenFile 3 New "/a" O_RDONLY 0 exStorage
               = Some (Ok exOpened, exStorage)) by (vm_compute; reflexivity).
  split; [exact H1|]. split; [exact H2|].
  exact (OpenFile_stays_under_base 3 New "/a" O_RDONLY 0 exStorage exStorage
           exOpened H1 H2).
Defined.

Lemma Chroot_narrows_witness :
  rooted New /\ Memory_Chroot New "/a" = Ok exChroot
  /\ rooted exChroot
  /\ tempCount exChroot = 0
  /\ (exists rest, under (base New) (base exChroot) rest
                   /\ climbs rest = false)
  /\ forall q, HasPrefix q "/" = true ->
       Memory_validate exChroot q = None -> Memory_validate New q = None.
Proof.
  assert (H1 : rooted New) by reflexivity.
  assert (H2 : Memory_Chroot New "/a" = Ok exChroot) by reflexivity.
  split; [exact H1|]. split; [exact H2|].
  exact (Chroot_narrows New exChroot "/a" H1 H2).
Defined.

Lemma OpenFile_keeps_storage_witness :
  isCreate O_RDONLY = false /\ isTruncate O_RDONLY = false
  /\ Memory_OpenFile 3 New "/a" O_RDONLY 0 exStorage
     = Some (Ok exOpened, exStorage)
  /\ exStorage = exStorage.
Proof.
  assert (H1 : isCreate O_RDONLY = false) by reflexivity.
  assert (H2 : isTruncate O_RDONLY = false) by reflexivity.
  assert (H3 : Memory_OpenFile 3 New "/a" O_RDONLY 0 exStorage
               = Some (Ok exOpened, exStorage)) by (vm_compute; reflexivity).
  split; [exact H1|]. split; [exact H2|]. split; [exact H3|].
  exact (OpenFile_keeps_storage 3 New "/a" O_RDONLY 0 exStorage exStorage
           (Ok exOpened) H1 H2 H3).
Defined.

Lemma ReadDir_lists_chain_end_witness :
  chainEnd 0 New "/dir" exStorage = Some "/dir" /\ (0 < 1)%nat
  /\ Memory_ReadDir 1 New "/dir" exStorage
     = Some (Ok (listing "/dir" exStorage)).
Proof.
  assert (H1 : chainEnd 0 New "/dir" exStorage = Some "/dir")
    by (vm_compute; reflexivity).
  assert (H2 : (0 < 1)%nat) by lia.
  split; [exact H1|]. split; [exact H2|].
  exact (proj2 (ReadDir_lists_chain_end 1 New "/dir" exStorage)
           0%nat "/dir" H1 H2).
Defined.

Lemma symlink_cycle_never_returns_witness :
  let P := fun p => Memory_fullpath New p = "/a"
                    \/ Memory_fullpath New p = "/b" in
  linksWithin P New exCycle /\ P "a"
  /\ Memory_Stat 5 New "a" exCycle = None
  /\ (forall fl perm, Memory_OpenFile 5 New "a" fl perm exCycle = None)
  /\ Memory_ReadDir 5 New "a" exCycle = None.
Proof.
  intros P.
  assert (H1 : linksWithin P New exCycle).
  { intros p [Hp|Hp]; rewrite Hp.
    - exists (mkFile "a" 0%nat 0 writeFlags linkMode false), "b".
      split; [vm_compute; reflexivity|].
      split; [vm_compute; reflexivity|]. right. reflexivity.
    - exists (mkFile "b" 2%nat 0 writeFlags linkMode false), "a".
      split; [vm_compute; reflexivity|].
      split; [vm_compute; reflexivity|]. left. reflexivity. }
  assert (H2 : P "a") by (left; reflexivity).
  split; [exact H1|]. split; [exact H2|].
  exact (symlink_cycle_never_returns P New exCycle H1 5 "a" H2).
Defined.

Lemma Read_at_cursor_witness :
  let h := setPosition 2 exFile in
  isClosed h = false
  /\ isReadAndWrite (flag h) || isReadOnly (flag h) = true
  /\ 0 <= position h /\ position h + Z.of_nat 10 < 2 ^ 63
  /\ file_Read h 10 exStorage
     = ((take 10 (drop (Z.to_nat (position h)) (bytes exStorage (content h))),
         if Z.of_nat (length (bytes exStorage (content h))) <=? position h
         then Some EOF else None),
        setPosition
          (position h
           + Z.of_nat (length (take 10 (drop (Z.to_nat (position h))
                                          (bytes exStorage (content h))))))
          h).
Proof.
  intros h.
  assert (H1 : isClosed h = false) by reflexivity.
  assert (H2 : isReadAndWrite (flag h) || isReadOnly (flag h) = true)
    by reflexivity.
  assert (H3 : 0 <= position h) by (vm_compute; discriminate).
  assert (H4 : position h + Z.of_nat 10 < 2 ^ 63) by (vm_compute; reflexivity).
  split; [exact H1|]. split; [exact H2|]. split; [exact H3|].
  split; [exact H4|].
  exact (Read_at_cursor h 10 exStorage H1 H2 H3 H4).
Defined.

Lemma Seek_end_then_Write_appends_witness :
  let data := list_byte_of_string " world" in
  isClosed exFile = false
  /\ isReadAndWrite (flag exFile) || isWriteOnly (flag exFile) = true
  /\ Z.of_nat (length (bytes exStorage (content exFile)))
     + Z.of_nat (length data) < 2 ^ 63
  /\ let B := bytes exStorage (content exFile) in
     let '((pos, e1), h1) := file_Seek exFile 0 SeekEnd exStorage in
     let '((n, e2), h2, s2) := file_Write h1 data exStorage in
     pos = Z.of_nat (length B) /\ e1 = None
     /\ n = Z.of_nat (length data) /\ e2 = None
     /\ bytes s2 (content exFile) = B ++ data
     /\ files s2 = files exStorage
     /\ h2 = setPosition (Z.of_nat (length B) + Z.of_nat (length data)) exFile.
Proof.
  intros data.
  assert (H1 : isClosed exFile = false) by reflexivity.
  assert (H2 : isReadAndWrite (flag exFile) || isWriteOnly (flag exFile)
               = true) by reflexivity.
  assert (H3 : Z.of_nat (length (bytes exStorage (content exFile)))
               + Z.of_nat (length data) < 2 ^ 63) by (vm_compute; reflexivity).
  split; [exact H1|]. split; [exact H2|]. split; [exact H3|].
  exact (Seek_end_then_Write_appends exFile data exStorage H1 H2 H3).
Defined.

Lemma Write_Seek_back_Read_witness :
  let data := list_byte_of_string "HE" in
  isClosed exFile = false
  /\ isReadAndWrite (flag exFile) = true
  /\ 0 <= position exFile
  /\ position exFile + Z.of_nat (length data) < 2 ^ 63
  /\ let '((n, e1), h1, s1) := file_Write exFile data exStorage in
     let '((pos, e2), h2) := file_Seek h1 (- n) SeekCurrent s1 in
     n = Z.of_nat (length data) /\ e1 = None
     /\ pos = position exFile /\ e2 = None
     /\ (file_Read h2 (length data) s1).1.1 = data.
Proof.
  intros data.
  assert (H1 : isClosed exFile = false) by reflexivity.
  assert (H2 : isReadAndWrite (flag exFile) = true) by reflexivity.
  assert (H3 : 0 <= position exFile) by (vm_compute; discriminate).
  assert (H4 : position exFile + Z.of_nat (length data) < 2 ^ 63)
    by (vm_compute; reflexivity).
  split; [exact H1|]. split; [exact H2|]. split; [exact H3|].
  split; [exact H4|].
  exact (Write_Seek_back_Read exFile data exStorage H1 H2 H3 H4).
Defined.

Lemma Symlink_then_Readlink_witness :
  rooted New /\ (0 < 1)%nat /\ HasPrefix "l" "/" = false
  /\ Memory_validate New (Memory_fullpath New "l") = None
  /\ files exStorage !! Memory_fullpath New "l" = None
  /\ Memory_isTargetOutBounders New "l" "dir/c" = false
  /\ exists s' : storage,
       Memory_Symlink 1 New "dir/c" "l" exStorage = Some (None, s')
       /\ Memory_Readlink New "l" s' = Ok (clean "dir/c")
       /\ Memory_Lstat New "l" s'
          = Ok (mkFileInfo (Base (Memory_fullpath New "l"))
                  (Z.of_nat (String.length (clean "dir/c"))) linkMode)
       /\ extends exStorage s'.
Proof.
  assert (H1 : rooted New) by reflexivity.
  assert (H2 : (0 < 1)%nat) by lia.
  assert (H3 : HasPrefix "l" "/" = false) by reflexivity.
  assert (H4 : Memory_validate New (Memory_fullpath New "l") = None)
    by (vm_compute; reflexivity).
  assert (H5 : files exStorage !! Memory_fullpath New "l" = None)
    by (vm_compute; reflexivity).
  assert (H6 : Memory_isTargetOutBounders New "l" "dir/c" = false)
    by (vm_compute; reflexivity).
  split; [exact H1|]. split; [exact H2|]. split; [exact H3|].
  split; [exact H4|]. split; [exact H5|]. split; [exact H6|].
  exact (Symlink_then_Readlink 1 New "dir/c" "l" exStorage H1 H2 H3 H4 H5 H6).
Defined.

Lemma relative_name_accepted_witness :
  rooted exChroot /\ HasPrefix "x/../y" "/" = false
  /\ isCrossBoundaries "x/../y" = false
  /\ under (base exChroot) (Memory_fullpath exChroot "x/../y")
       (pathElems "x/../y")
  /\ Memory_validate exChroot (Memory_fullpath exChroot "x/../y") = None.
Proof.
  assert (H1 : rooted exChroot) by reflexivity.
  assert (H2 : HasPrefix "x/../y" "/" = false) by reflexivity.
  assert (H3 : isCrossBoundaries "x/../y" = false) by (vm_compute; reflexivity).
  split; [exact H1|]. split; [exact H2|]. split; [exact H3|].
  exact (relative_name_accepted exChroot "x/../y" H1 H2 H3).
Defined.

Lemma SubDir_refuses_climbing_names_witness :
  isCrossBoundaries "../x" = true
  /\ SubDir_Create exNewFile exSub "../x" (New, newStorage)
     = Some (Err ErrCrossedBoundary, (New, newStorage))
  /\ SubDir_MkdirAll exSub "../x" 493 (New, newStorage)
     = Some (Some ErrCrossedBoundary, (New, newStorage)).
Proof.
  assert (H1 : isCrossBoundaries "../x" = true) by (vm_compute; reflexivity).
  split; [exact H1|].
  pose proof (SubDir_refuses_climbing_names exNewFile exSub "../x"
                (New, newStorage) H1)
    as (_ & Hc & _ & _ & _ & _ & _ & Hm & _).
  split; [exact Hc|exact (Hm 493)].
Defined.

Lemma SubDir_underlyingPath_under_base_witness :
  (forall l, fs_Join (underlying exSub) l = Join l)
  /\ SubDir_base exSub <> ""
  /\ HasPrefix "x/y" "/" = false /\ isCrossBoundaries "x/y" = false
  /\ SubDir_underlyingPath exSub "x/y"
     = Ok (fromElems (HasPrefix (SubDir_base exSub) "/")
             (pathElems (SubDir_base exSub) ++ pathElems "x/y"))
  /\ Forall (fun e => e <> "..") (pathElems "x/y").
Proof.
  assert (H1 : forall l, fs_Join (underlying exSub) l = Join l)
    by (intros l; reflexivity).
  assert (H2 : SubDir_base exSub <> "") by discriminate.
  assert (H3 : HasPrefix "x/y" "/" = false) by reflexivity.
  assert (H4 : isCrossBoundaries "x/y" = false) by (vm_compute; reflexivity).
  split; [exact H1|]. split; [exact H2|]. split; [exact H3|].
  split; [exact H4|].
  exact (SubDir_underlyingPath_under_base exSub "x/y" H1 H2 H3 H4).
Defined.

Lemma SubDir_rooted_name_escapes_witness :
  (forall l, fs_Join (underlying exSub) l = Join l)
  /\ pathElems (SubDir_base exSub) = [] ++ ["sub"] /\ "sub" <> ".."
  /\ HasPrefix "secret" "/" = false /\ isCrossBoundaries "secret" = false
  /\ SubDir_underlyingPath exSub ("/../" +:+ "secret")
     = Ok (fromElems (HasPrefix (SubDir_base exSub) "/")
             ([] ++ pathElems "secret")).
Proof.
  assert (H1 : forall l, fs_Join (underlying exSub) l = Join l)
    by (intros l; reflexivity).
  assert (H2 : pathElems (SubDir_base exSub) = [] ++ ["sub"])
    by (vm_compute; reflexivity).
  assert (H3 : "sub" <> "..") by discriminate.
  assert (H4 : HasPrefix "secret" "/" = false) by reflexivity.
  assert (H5 : isCrossBoundaries "secret" = false)
    by (vm_compute; reflexivity).
  split; [exact H1|]. split; [exact H2|]. split; [exact H3|].
  split; [exact H4|]. split; [exact H5|].
  exact (proj2 (SubDir_rooted_name_escapes exSub) "secret" "sub" []
           H1 H2 H3 H4 H5).
Defined.

Lemma TempFile_joins_base_twice_witness :
  let cand := tempName exClock (base exChroot) "tmp" "f" 1 in
  let made := Memory_fullpath (mkMemory "/a" 1) cand in
  rooted exChroot
  /\ Memory_TempFile 1 exClock exChroot "tmp" "f" newStorage
     = Some (Ok exTempHandle, mkMemory "/a" 1, exTempStorage)
  /\ files newStorage !! cand = None
  /\ elems (Clean made) = elems (Clean (base exChroot)) ++ elems (Clean cand)
  /\ made <> cand.
Proof.
  intros cand made.
  assert (H1 : rooted exChroot) by reflexivity.
  assert (H2 : Memory_TempFile 1 exClock exChroot "tmp" "f" newStorage
               = Some (Ok exTempHandle, mkMemory "/a" 1, exTempStorage))
    by (vm_compute; reflexivity).
  split; [exact H1|]. split; [exact H2|].
  pose proof (TempFile_joins_base_twice 1 exClock exChroot (mkMemory "/a" 1)
                "tmp" "f" newStorage exTempStorage exTempHandle H1 H2)
    as (_ & Hfree & _ & Hel & Hne & _).
  split; [exact Hfree|]. split; [exact Hel|].
  apply Hne. vm_compute. discriminate.
Defined.
